(** * The builtin-echo client of Teaclave (examples/c/builtin_echo.c)

    A shallow embedding of [main] of [examples/c/builtin_echo.c] and of the
    C library routines it uses to build requests and to read identifiers out
    of responses, together with the properties of the client-side protocol:
    call order, cleanup, error handling and identifier parsing.

    Conventions.
    - A [char] buffer is represented by the C string it holds (the bytes
      before the first NUL); [c_str] cuts a byte sequence at its first NUL.
    - [int] and [size_t] values are integers of [Z]; the program does no
      arithmetic on them, it only compares return codes with [0].
    - The functions of [teaclave_client_sdk.h] and [utils.h] are external:
      [main] is parameterised by an interface [Extern] whose operations
      thread a state of the outside world.  A run is the sequence of the
      external calls and of the lines written to [stdout] and [stderr],
      with the way the process ends.
    - A pointer variable that is read before any value was stored in it
      holds [Indeterminate]; the call that receives it is recorded with
      that argument and answered by the world like any other call.
    - What the platform and the SDK do is not in the example; where a
      property depends on it, it is modelled from the specification
      ([close_model], [Platform]).

    The first part of the file holds the definitions, the second part the
    lemmas and the theorems. *)

From Stdlib Require Import String Ascii List ZArith Bool Lia.
Import ListNotations.
Local Open Scope string_scope.
Local Open Scope Z_scope.

(* ===================================================================== *)
(** ** C strings and literals *)
(* ===================================================================== *)

Definition dquote : ascii := ascii_of_nat 34.
Definition apostrophe : ascii := ascii_of_nat 39.
Definition NUL : ascii := ascii_of_nat 0.
Definition nl : string := String (ascii_of_nat 10) EmptyString.

(** Transcription of a C literal whose text contains double-quote
    characters: in the argument the apostrophe stands for the double quote
    (no literal of the program contains an apostrophe). *)
Fixpoint lit (s : string) : string :=
  match s with
  | EmptyString => EmptyString
  | String c s' =>
      String (if Ascii.eqb c apostrophe then dquote else c) (lit s')
  end.

(** The C string held by a buffer: the bytes before the first NUL. *)
Fixpoint c_str (s : string) : string :=
  match s with
  | EmptyString => EmptyString
  | String c s' => if Ascii.eqb c NUL then EmptyString else String c (c_str s')
  end.

(** [strstr]-like test, used to state what a request or a payload contains. *)
Fixpoint contains (needle hay : string) : bool :=
  String.prefix needle hay ||
  match hay with
  | EmptyString => false
  | String _ hay' => contains needle hay'
  end.

(** Every character of the string satisfies [p]. *)
Fixpoint all_chars (p : ascii -> bool) (s : string) : bool :=
  match s with
  | EmptyString => true
  | String c s' => p c && all_chars p s'
  end.

Definition not_NUL (c : ascii) : bool := negb (Ascii.eqb c NUL).

(* ===================================================================== *)
(** ** Constants of the program *)
(* ===================================================================== *)

(** [#define BUFFER_SIZE 4086] *)
Definition BUFFER_SIZE : Z := 4086.

(** [#define QUOTE(x...) #x] turns its argument into a string literal: every
    run of white space between two tokens becomes one space, white space at
    both ends is dropped, and the spelling of a string literal inside the
    argument is kept, backslashes included. *)

(** [const char *register_function_request_serialized = QUOTE({...});] *)
Definition register_function_request_serialized : string :=
  lit ("{ 'request' : 'register_function', 'name' : 'builtin-echo', " ++
       "'description' : 'Native Echo Function', " ++
       "'executor_type' : 'builtin', 'public' : true, 'payload' : [], " ++
       "'arguments' : [{'key': 'message', 'default_value': '', " ++
       "'allow_overwrite': true}], 'inputs' : [], 'outputs' : [], " ++
       "'user_allowlist': [], 'usage_quota': -1 }").

(** [const char *create_task_request_serialized = QUOTE({...});]
    a [printf] format with one [%s] for the function identifier. *)
Definition create_task_request_serialized : string :=
  lit ("{ 'request' : 'create_task', 'function_id' : '%s', " ++
       "'function_arguments' : '{\'message\': \'Hello, Teaclave!\'}', " ++
       "'executor' : 'builtin', 'inputs_ownership' : [], " ++
       "'outputs_ownership' : [] }").

Definition user_id : string := "test_id".
Definition user_password : string := "test_password".
Definition admin_user_id : string := "admin".
Definition admin_user_password : string := "teaclave".

(* ===================================================================== *)
(** ** The C library routines used by [main] *)
(* ===================================================================== *)

Module Libc.

(** [isspace] in the C locale: space, [\t], [\n], [\v], [\f], [\r]. *)
Definition isspace (c : ascii) : bool :=
  let n := nat_of_ascii c in
  (Nat.eqb n 32 || (Nat.leb 9 n && Nat.leb n 13))%bool.

(** Output of [printf]-family formatting for formats whose only
    conversions are [%s]: each [%s] takes the next argument, a C string. *)
Fixpoint format (fmt : string) (args : list string) : string :=
  match fmt with
  | String "%" (String "s" fmt') =>
      match args with
      | a :: args' => c_str a ++ format fmt' args'
      | [] => EmptyString
      end
  | String c fmt' => String c (format fmt' args)
  | EmptyString => EmptyString
  end.

Fixpoint take (n : nat) (s : string) : string :=
  match n, s with
  | S n', String c s' => String c (take n' s')
  | _, _ => EmptyString
  end.

(** [snprintf(buf, size, fmt, args...)]: the buffer receives at most
    [size - 1] characters of the formatted text and a terminating NUL. *)
Definition snprintf (size : Z) (fmt : string) (args : list string) : string :=
  take (Z.to_nat (size - 1)) (format fmt args).

(** A [scanf] format: ordinary (non white space) characters and [%<w>s]
    conversions. *)
Inductive directive : Type :=
| Ordinary (c : ascii)
| ConvS (width : nat).

Fixpoint ordinary (s : string) : list directive :=
  match s with
  | EmptyString => []
  | String c s' => Ordinary c :: ordinary s'
  end.

Fixpoint skip_space (s : string) : string :=
  match s with
  | String c s' => if isspace c then skip_space s' else s
  | EmptyString => EmptyString
  end.

(** The longest run of at most [width] characters that are not white
    space, at the head of the input. *)
Fixpoint scan_word (width : nat) (s : string) : string :=
  match width, s with
  | S w, String c s' =>
      if isspace c then EmptyString else String c (scan_word w s')
  | _, _ => EmptyString
  end.

(** The effect of [sscanf(input, fmt, dest)] on [dest], for a format with
    at most one conversion, which is [%<w>s]: an ordinary character must
    equal the next input character, else the call stops; [%<w>s] skips
    white space, then stores the next at most [w] characters that are not
    white space, followed by NUL; when the input has none, nothing is
    stored.  ([main] discards the value [sscanf] returns.) *)
Fixpoint sscanf_into (fmt : list directive) (input dest : string) : string :=
  match fmt with
  | [] => dest
  | Ordinary c :: fmt' =>
      match input with
      | String a rest =>
          if Ascii.eqb a c then sscanf_into fmt' rest dest else dest
      | EmptyString => dest
      end
  | ConvS w :: _ =>
      match scan_word w (skip_space input) with
      | EmptyString => dest
      | word => word
      end
  end.

Definition sscanf (input : string) (fmt : list directive) (dest : string)
  : string :=
  sscanf_into fmt (c_str input) dest.

End Libc.

Definition not_space (c : ascii) : bool := negb (Libc.isspace c).

(** Nothing, or white space, comes next. *)
Definition at_word_end (s : string) : Prop :=
  match s with
  | EmptyString => True
  | String c _ => Libc.isspace c = true
  end.


(** The two [sscanf] formats of [main]. *)
Definition function_id_prefix : string := lit "{'function_id':'".
Definition task_id_prefix : string := lit "{'task_id':'".

Definition function_id_format : list Libc.directive :=
  Libc.ordinary function_id_prefix ++ [Libc.ConvS 45].
Definition task_id_format : list Libc.directive :=
  Libc.ordinary task_id_prefix ++ [Libc.ConvS 41].

(* ===================================================================== *)
(** ** The outside world: SDK and helper calls *)
(* ===================================================================== *)

(** The value of the variable [FrontendClient *frontend_client].  The
    variable is declared, with its initialiser, in the middle of [main]; a
    [goto bail] that is taken before the declaration is reached arrives at
    the label with the variable in scope and never initialised. *)
Inductive handle : Type :=
| Indeterminate            (* declared, never initialised *)
| Null                     (* NULL *)
| Client (id : nat).       (* a non-NULL FrontendClient pointer *)

Definition handle_of (p : option nat) : handle :=
  match p with
  | Some id => Client id
  | None => Null
  end.

(** The external functions [main] calls.  [W] is the state of everything
    outside the program (the platform services and the SDK's own data).  An
    out-parameter is a component of the result; an in/out parameter is both
    an argument and a component of the result. *)
Record Extern (W : Type) : Type := {
  (* int login(user, password, token, &token_len)   [utils.h] *)
  login : string -> string -> string -> Z -> W -> (Z * string * Z) * W;
  (* int user_register(admin, token, user, password)   [utils.h] *)
  user_register : string -> string -> string -> string -> W -> Z * W;
  (* FrontendClient *teaclave_connect_frontend_service(addr, info, cert) *)
  teaclave_connect_frontend_service :
    string -> string -> string -> W -> option nat * W;
  (* int teaclave_frontend_set_credential(client, user_id, token) *)
  teaclave_frontend_set_credential :
    handle -> string -> string -> W -> Z * W;
  (* int teaclave_register_function_serialized(client, request,
                                               response, &response_len) *)
  teaclave_register_function_serialized :
    handle -> string -> string -> Z -> W -> (Z * string * Z) * W;
  (* int teaclave_create_task_serialized(client, request,
                                         response, &response_len) *)
  teaclave_create_task_serialized :
    handle -> string -> string -> Z -> W -> (Z * string * Z) * W;
  (* int teaclave_invoke_task(client, task_id) *)
  teaclave_invoke_task : handle -> string -> W -> Z * W;
  (* int teaclave_get_task_result(client, task_id, result, &result_len) *)
  teaclave_get_task_result :
    handle -> string -> string -> Z -> W -> (Z * string * Z) * W;
  (* int teaclave_close_frontend_service(client) *)
  teaclave_close_frontend_service : handle -> W -> Z * W
}.

Arguments login {W}.
Arguments user_register {W}.
Arguments teaclave_connect_frontend_service {W}.
Arguments teaclave_frontend_set_credential {W}.
Arguments teaclave_register_function_serialized {W}.
Arguments teaclave_create_task_serialized {W}.
Arguments teaclave_invoke_task {W}.
Arguments teaclave_get_task_result {W}.
Arguments teaclave_close_frontend_service {W}.

(** What an observer sees of a run, in order: the text written to the two
    streams and every external call with its arguments and its results. *)
Inductive event : Type :=
| Stdout (text : string)
| Stderr (text : string)
| CallLogin (user password : string) (capacity : Z) (ret : Z) (token : string)
| CallUserRegister (admin token user password : string) (ret : Z)
| CallConnect (address info cert : string) (client : handle)
| CallSetCredential (client : handle) (user token : string) (ret : Z)
| CallRegisterFunction (client : handle) (request buffer : string)
    (capacity : Z) (ret : Z) (response : string) (response_len : Z)
| CallCreateTask (client : handle) (request buffer : string)
    (capacity : Z) (ret : Z) (response : string) (response_len : Z)
| CallInvokeTask (client : handle) (task_id : string) (ret : Z)
| CallGetTaskResult (client : handle) (task_id : string) (capacity : Z)
    (ret : Z) (result : string) (result_len : Z)
| CallClose (client : handle) (ret : Z).

(** How the process ends. *)
Inductive outcome : Type :=
| Returned (ret : Z)       (* return ret; from main *)
| Exited (status : Z).     (* exit(status); *)

(** The status the parent process receives: the low eight bits. *)
Definition process_status (o : outcome) : Z :=
  match o with
  | Returned r => r mod 256
  | Exited s => s mod 256
  end.

(* ===================================================================== *)
(** ** The program *)
(* ===================================================================== *)

Section Program.

Context {W : Type}.
Variable sdk : Extern W.

(** Configuration of [utils.h]. *)
Variables frontend_service_address enclave_info_path as_root_ca_cert_path
  : string.

(** The part of the program state that every statement may touch: the
    world, the variable the [bail] block reads, and what has been
    observed so far (latest event first). *)
Record machine : Type := {
  world : W;
  frontend_client : handle;
  observed : list event
}.

(** A statement either falls through with a value or jumps to [bail]. *)
Inductive flow (A : Type) : Type :=
| Next (a : A)
| Bail.
Arguments Next {A}.
Arguments Bail {A}.

Definition C (A : Type) : Type := machine -> flow A * machine.

Definition ret_ {A} (a : A) : C A := fun m => (Next a, m).

Definition bind {A B} (c : C A) (k : A -> C B) : C B :=
  fun m =>
    match c m with
    | (Next a, m') => k a m'
    | (Bail, m') => (Bail, m')
    end.

Definition goto_bail {A} : C A := fun m => (Bail, m).

Definition emit (e : event) : C unit :=
  fun m => (Next tt, {| world := world m;
                        frontend_client := frontend_client m;
                        observed := e :: observed m |}).

(** An external call: run it on the world and record it. *)
Definition extern {A} (f : W -> A * W) (ev : A -> event) : C A :=
  fun m =>
    let (a, w') := f (world m) in
    (Next a, {| world := w';
                frontend_client := frontend_client m;
                observed := ev a :: observed m |}).

Definition set_frontend_client (h : handle) : C unit :=
  fun m => (Next tt, {| world := world m;
                        frontend_client := h;
                        observed := observed m |}).

Definition get_frontend_client : C handle :=
  fun m => (Next (frontend_client m), m).

Definition when (b : bool) (c : C unit) : C unit :=
  if b then c else ret_ tt.

Local Notation "x <- c ;; k" := (bind c (fun x => k))
  (at level 61, c at next level, right associativity).
Local Notation "' p <- c ;; k" := (bind c (fun x => let 'p := x in k))
  (at level 61, p pattern, c at next level, right associativity).
Local Notation "c ;; k" := (bind c (fun _ => k))
  (at level 61, right associativity).

Definition printf (fmt : string) (args : list string) : C unit :=
  emit (Stdout (Libc.format fmt args)).
Definition fprintf_stderr (fmt : string) : C unit :=
  emit (Stderr (Libc.format fmt [])).

Definition nonzero (ret : Z) : bool := negb (ret =? 0).

(** The statements of [main] from its first line to [return ret;]. *)
Definition main_body : C Z :=
  let token := EmptyString in             (* char token[BUFFER_SIZE] = {0} *)
  let token_len := BUFFER_SIZE in
  let serialized_response := EmptyString in
  let function_id := EmptyString in
  let task_result := EmptyString in
  let task_id := EmptyString in
  (* Register *)
  printf ("[+] Registering" ++ nl) [] ;;
  '(ret, token, token_len) <-
      extern (login sdk admin_user_id admin_user_password token token_len)
             (fun '(r, t, _) =>
                CallLogin admin_user_id admin_user_password token_len r t) ;;
  when (nonzero ret)
       (fprintf_stderr ("[-] Failed to login." ++ nl) ;; goto_bail) ;;
  ret <- extern (user_register sdk admin_user_id token user_id user_password)
                (CallUserRegister admin_user_id token user_id user_password) ;;
  when (nonzero ret)
       (fprintf_stderr ("[-] Failed to register. Ignore." ++ nl)) ;;
  (* Login. *)
  printf ("[+] Login" ++ nl) [] ;;
  let token_len := BUFFER_SIZE in
  '(ret, token, token_len) <-
      extern (login sdk user_id user_password token token_len)
             (fun '(r, t, _) =>
                CallLogin user_id user_password token_len r t) ;;
  when (nonzero ret)
       (fprintf_stderr ("[-] Failed to login." ++ nl) ;; goto_bail) ;;
  (* Connect to the frontend serivice. *)
  printf ("connect frontend service" ++ nl) [] ;;
  p <- extern (teaclave_connect_frontend_service sdk
                 frontend_service_address enclave_info_path
                 as_root_ca_cert_path)
              (fun p => CallConnect frontend_service_address
                          enclave_info_path as_root_ca_cert_path
                          (handle_of p)) ;;
  set_frontend_client (handle_of p) ;;
  when (match p with None => true | Some _ => false end)
       (fprintf_stderr
          ("[-] Failed to connect to the frontend service." ++ nl) ;;
        (* ret = 1; *)
        goto_bail) ;;
  printf ("set crendential" ++ nl) [] ;;
  (* Set user id and token. *)
  client <- get_frontend_client ;;
  ret <- extern (teaclave_frontend_set_credential sdk client user_id token)
                (CallSetCredential client user_id token) ;;
  when (nonzero ret)
       (fprintf_stderr ("[-] Failed to set credential." ++ nl) ;;
        goto_bail) ;;
  (* Register function. *)
  let serialized_response_len := BUFFER_SIZE in
  '(ret, serialized_response, serialized_response_len) <-
      extern (teaclave_register_function_serialized sdk client
                register_function_request_serialized
                serialized_response serialized_response_len)
             (fun '(r, resp, len) =>
                CallRegisterFunction client
                  register_function_request_serialized
                  serialized_response serialized_response_len r resp len) ;;
  when (nonzero ret)
       (fprintf_stderr ("[-] Failed to register the function." ++ nl) ;;
        goto_bail) ;;
  let function_id :=
    Libc.sscanf serialized_response function_id_format function_id in
  printf ("[+] function_id: %s" ++ nl) [function_id] ;;
  (* Create task. *)
  let serialized_request :=
    Libc.snprintf BUFFER_SIZE create_task_request_serialized
      [function_id] in
  let serialized_response := EmptyString in   (* memset(.., 0, BUFFER_SIZE) *)
  '(ret, serialized_response, serialized_response_len) <-
      extern (teaclave_create_task_serialized sdk client
                serialized_request
                serialized_response serialized_response_len)
             (fun '(r, resp, len) =>
                CallCreateTask client serialized_request
                  serialized_response serialized_response_len r resp len) ;;
  when (nonzero ret)
       (fprintf_stderr ("[-] Failed to create a task." ++ nl) ;;
        goto_bail) ;;
  let task_id :=
    Libc.sscanf serialized_response task_id_format task_id in
  printf ("[+] task_id: %s" ++ nl) [task_id] ;;
  (* Invoke task. *)
  ret <- extern (teaclave_invoke_task sdk client task_id)
                (CallInvokeTask client task_id) ;;
  when (nonzero ret)
       (fprintf_stderr ("[-] Failed to invoke the task." ++ nl) ;;
        goto_bail) ;;
  (* Get task result. *)
  let task_result_len := BUFFER_SIZE in
  '(ret, task_result, task_result_len) <-
      extern (teaclave_get_task_result sdk client task_id
                task_result task_result_len)
             (fun '(r, res, len) =>
                CallGetTaskResult client task_id task_result_len
                  r res len) ;;
  when (nonzero ret)
       (fprintf_stderr ("[-] Failed to get the task result." ++ nl) ;;
        goto_bail) ;;
  printf ("[+] Task result in string: %s" ++ nl) [task_result] ;;
  ret <- extern (teaclave_close_frontend_service sdk client)
                (CallClose client) ;;
  when (nonzero ret)
       (fprintf_stderr
          ("[-] Failed to close the frontend service client." ++ nl)) ;;
  ret_ ret.

(** The block at the label [bail], up to the call of [exit]. *)
Definition bail_block : C unit :=
  client <- get_frontend_client ;;
  ret <- extern (teaclave_close_frontend_service sdk client)
                (CallClose client) ;;
  when (nonzero ret)
       (fprintf_stderr
          ("[-] Failed to close the frontend service client." ++ nl)).

Record run : Type := {
  trace : list event;      (* in the order of occurrence *)
  result : outcome;
  final_world : W
}.

Definition finish (o : outcome) (m : machine) : run :=
  {| trace := rev (observed m); result := o; final_world := world m |}.

(** [int main()] *)
Definition main (w : W) : run :=
  let start := {| world := w; frontend_client := Indeterminate;
                  observed := [] |} in
  match main_body start with
  | (Next ret, m) => finish (Returned ret) m          (* return ret; *)
  | (Bail, m) =>                                      (* bail: *)
      let (_, m') := bail_block m in
      finish (Exited (-1)) m'                         (* exit(-1); *)
  end.

End Program.

Arguments trace {W}.
Arguments result {W}.
Arguments final_world {W}.

Local Open Scope list_scope.

(* ===================================================================== *)
(** ** Closing a connection, as the specification describes it *)
(* ===================================================================== *)

(** Modelled from the spec: [teaclave_close_frontend_service], a function of
    the client SDK whose definition is not part of the example.  The spec
    (4.2, 8) makes closing best-effort: a failure is reported to the caller
    and never escalated; closing a connection twice, or closing a
    connection that failed to open, does not crash the client, it reports
    failure and returns control to the caller.  The model keeps the
    connections that are open; [None] stands for the NULL that a failed
    [connect] returns.  It returns in every case: 0 when an open connection
    is released, a failure code otherwise. *)
Definition close_model (open : list nat) (connection : option nat)
  : Z * list nat :=
  match connection with
  | None => (1, open)
  | Some id =>
      if existsb (Nat.eqb id) open
      then (0, filter (fun id' => negb (Nat.eqb id id')) open)
      else (1, open)
  end.

(** Modelled from the spec: an SDK whose [teaclave_close_frontend_service]
    behaves as [close_model]; [opened] reads the open connections off the
    state of the world.  Only the distinction between 0 and a failure code
    is prescribed. *)
Definition closes_as_modelled {W : Type} (sdk : Extern W)
    (opened : W -> list nat) : Prop :=
  forall (connection : option nat) (w : W),
    let (ret, w') := teaclave_close_frontend_service sdk
                       (handle_of connection) w in
    (ret = 0 <-> fst (close_model (opened w) connection) = 0) /\
    opened w' = snd (close_model (opened w) connection).

(* ===================================================================== *)
(** ** Scripted worlds, for concrete runs *)
(* ===================================================================== *)

(** A script fixes the answer of every call site of [main]. *)
Record script : Type := {
  on_login_admin : Z * string * Z;
  on_user_register : Z;
  on_login_user : Z * string * Z;
  on_connect : option nat;
  on_set_credential : Z;
  on_register_function : Z * string * Z;
  on_create_task : Z * string * Z;
  on_invoke_task : Z;
  on_get_task_result : Z * string * Z;
  on_close : Z
}.

(** A world without state that answers by the script. *)
Definition scripted (s : script) : Extern unit := {|
  login := fun user _ _ _ w =>
    (if String.eqb user admin_user_id then on_login_admin s
     else on_login_user s, w);
  user_register := fun _ _ _ _ w => (on_user_register s, w);
  teaclave_connect_frontend_service := fun _ _ _ w => (on_connect s, w);
  teaclave_frontend_set_credential := fun _ _ _ w => (on_set_credential s, w);
  teaclave_register_function_serialized := fun _ _ _ _ w =>
    (on_register_function s, w);
  teaclave_create_task_serialized := fun _ _ _ _ w => (on_create_task s, w);
  teaclave_invoke_task := fun _ _ w => (on_invoke_task s, w);
  teaclave_get_task_result := fun _ _ _ _ w => (on_get_task_result s, w);
  teaclave_close_frontend_service := fun _ w => (on_close s, w)
|}.

(** A world that keeps the open connections and closes them as
    [close_model] does; the script answers everything else, and also a
    closing of a handle that was never initialised, for which the
    specification has no contract. *)
Definition tracked (s : script) : Extern (list nat) := {|
  login := fun user _ _ _ w =>
    (if String.eqb user admin_user_id then on_login_admin s
     else on_login_user s, w);
  user_register := fun _ _ _ _ w => (on_user_register s, w);
  teaclave_connect_frontend_service := fun _ _ _ w =>
    match on_connect s with
    | Some id => (Some id, id :: w)
    | None => (None, w)
    end;
  teaclave_frontend_set_credential := fun _ _ _ w => (on_set_credential s, w);
  teaclave_register_function_serialized := fun _ _ _ _ w =>
    (on_register_function s, w);
  teaclave_create_task_serialized := fun _ _ _ _ w => (on_create_task s, w);
  teaclave_invoke_task := fun _ _ w => (on_invoke_task s, w);
  teaclave_get_task_result := fun _ _ _ _ w => (on_get_task_result s, w);
  teaclave_close_frontend_service := fun h w =>
    match h with
    | Null => close_model w None
    | Client id => close_model w (Some id)
    | Indeterminate => (on_close s, w)
    end
|}.

Definition sample_function_id : string :=
  "function-6a1bd1c4-24a9-4a3c-9464-4ee63ff0b2bd".
Definition sample_task_id : string :=
  "task-0f5ab0b5-7e59-4a55-8e6d-32a1c1d8a5c7".
Definition sample_function_response : string :=
  (function_id_prefix ++ sample_function_id ++ lit "'}")%string.
Definition sample_task_response : string :=
  (task_id_prefix ++ sample_task_id ++ lit "'}")%string.

(** Every call succeeds. *)
Definition all_good : script := {|
  on_login_admin := (0, "admin-token", 11);
  on_user_register := 0;
  on_login_user := (0, "user-token", 10);
  on_connect := Some 1%nat;
  on_set_credential := 0;
  on_register_function := (0, sample_function_response, 64);
  on_create_task := (0, sample_task_response, 56);
  on_invoke_task := 0;
  on_get_task_result := (0, "Hello, Teaclave!", 17);
  on_close := 0
|}.

(** The login of the administrator is refused. *)
Definition admin_login_fails : script := {|
  on_login_admin := (1, EmptyString, 4086);
  on_user_register := 0;
  on_login_user := (0, "user-token", 10);
  on_connect := Some 1%nat;
  on_set_credential := 0;
  on_register_function := (0, sample_function_response, 64);
  on_create_task := (0, sample_task_response, 56);
  on_invoke_task := 0;
  on_get_task_result := (0, "Hello, Teaclave!", 17);
  on_close := 0
|}.

(** The user exists already. *)
Definition user_exists : script := {|
  on_login_admin := (0, "admin-token", 11);
  on_user_register := 1;
  on_login_user := (0, "user-token", 10);
  on_connect := Some 1%nat;
  on_set_credential := 0;
  on_register_function := (0, sample_function_response, 64);
  on_create_task := (0, sample_task_response, 56);
  on_invoke_task := 0;
  on_get_task_result := (0, "Hello, Teaclave!", 17);
  on_close := 0
|}.

(** The frontend service cannot be reached; closing NULL fails. *)
Definition connect_fails : script := {|
  on_login_admin := (0, "admin-token", 11);
  on_user_register := 0;
  on_login_user := (0, "user-token", 10);
  on_connect := None;
  on_set_credential := 0;
  on_register_function := (0, sample_function_response, 64);
  on_create_task := (0, sample_task_response, 56);
  on_invoke_task := 0;
  on_get_task_result := (0, "Hello, Teaclave!", 17);
  on_close := 1
|}.

(** The task cannot be created. *)
Definition create_task_fails : script := {|
  on_login_admin := (0, "admin-token", 11);
  on_user_register := 0;
  on_login_user := (0, "user-token", 10);
  on_connect := Some 1%nat;
  on_set_credential := 0;
  on_register_function := (0, sample_function_response, 64);
  on_create_task := (1, EmptyString, 64);
  on_invoke_task := 0;
  on_get_task_result := (0, "Hello, Teaclave!", 17);
  on_close := 0
|}.

(** The calls succeed with responses of another shape. *)
Definition unexpected_responses : script := {|
  on_login_admin := (0, "admin-token", 11);
  on_user_register := 0;
  on_login_user := (0, "user-token", 10);
  on_connect := Some 1%nat;
  on_set_credential := 0;
  on_register_function := (0, lit "{'id':'f-1'}", 13);
  on_create_task := (0, lit "{'id':'t-1'}", 13);
  on_invoke_task := 0;
  on_get_task_result := (0, "Hello, Teaclave!", 17);
  on_close := 0
|}.

Definition sample_address : string := "localhost:7777".
Definition sample_info : string := "enclave_info.toml".
Definition sample_cert : string := "ias_root_ca_cert.pem".

Definition run_script (s : script) : run (W := unit) :=
  main (scripted s) sample_address sample_info sample_cert tt.

Definition run_tracked (s : script) : run (W := list nat) :=
  main (tracked s) sample_address sample_info sample_cert [].

(* ===================================================================== *)
(** ** Kinds of events *)
(* ===================================================================== *)

(** The connection an SDK call is made on. *)
Definition client_of (e : event) : handle :=
  match e with
  | CallSetCredential h _ _ _ => h
  | CallRegisterFunction h _ _ _ _ _ _ => h
  | CallCreateTask h _ _ _ _ _ _ => h
  | CallInvokeTask h _ _ => h
  | CallGetTaskResult h _ _ _ _ _ => h
  | CallClose h _ => h
  | CallConnect _ _ _ h => h
  | _ => Indeterminate
  end.

(** Function and task operations: they need a credential. *)
Definition privileged (e : event) : bool :=
  match e with
  | CallRegisterFunction _ _ _ _ _ _ _ => true
  | CallCreateTask _ _ _ _ _ _ _ => true
  | CallInvokeTask _ _ _ => true
  | CallGetTaskResult _ _ _ _ _ _ => true
  | _ => false
  end.

(** The operations of the task lifecycle. *)
Definition lifecycle (e : event) : bool :=
  match e with
  | CallCreateTask _ _ _ _ _ _ _ => true
  | CallInvokeTask _ _ _ => true
  | CallGetTaskResult _ _ _ _ _ _ => true
  | _ => false
  end.

Definition is_close (e : event) : bool :=
  match e with
  | CallClose _ _ => true
  | _ => false
  end.

(** External calls, as opposed to output. *)
Definition is_call (e : event) : bool :=
  match e with
  | Stdout _ => false
  | Stderr _ => false
  | _ => true
  end.

(** The call reported a failure: a non-zero return code, or NULL from
    [teaclave_connect_frontend_service]. *)
Definition failed (e : event) : Prop :=
  match e with
  | Stdout _ => False
  | Stderr _ => False
  | CallLogin _ _ _ r _ => r <> 0
  | CallUserRegister _ _ _ _ r => r <> 0
  | CallConnect _ _ _ h => h = Null
  | CallSetCredential _ _ _ r => r <> 0
  | CallRegisterFunction _ _ _ _ r _ _ => r <> 0
  | CallCreateTask _ _ _ _ r _ _ => r <> 0
  | CallInvokeTask _ _ r => r <> 0
  | CallGetTaskResult _ _ _ r _ _ => r <> 0
  | CallClose _ r => r <> 0
  end.

Definition is_user_register (e : event) : bool :=
  match e with
  | CallUserRegister _ _ _ _ _ => true
  | _ => false
  end.

(** The text [main] writes to [stderr] after a failure of the call. *)
Definition diagnostic (e : event) : string :=
  match e with
  | CallLogin _ _ _ _ _ => "[-] Failed to login." ++ nl
  | CallUserRegister _ _ _ _ _ => "[-] Failed to register. Ignore." ++ nl
  | CallConnect _ _ _ _ =>
      "[-] Failed to connect to the frontend service." ++ nl
  | CallSetCredential _ _ _ _ => "[-] Failed to set credential." ++ nl
  | CallRegisterFunction _ _ _ _ _ _ _ =>
      "[-] Failed to register the function." ++ nl
  | CallCreateTask _ _ _ _ _ _ _ => "[-] Failed to create a task." ++ nl
  | CallInvokeTask _ _ _ => "[-] Failed to invoke the task." ++ nl
  | CallGetTaskResult _ _ _ _ _ _ =>
      "[-] Failed to get the task result." ++ nl
  | CallClose _ _ =>
      "[-] Failed to close the frontend service client." ++ nl
  | _ => EmptyString
  end%string.

(** What follows the call of [teaclave_close_frontend_service]. *)
Definition close_report (ret : Z) : list event :=
  if ret =? 0 then []
  else [Stderr
          ("[-] Failed to close the frontend service client." ++ nl)%string].

(* ===================================================================== *)
(** ** Positions of a trace *)
(* ===================================================================== *)

(** [P past e future] holds at every position of the trace [tr], which
    comes after [past]. *)
Fixpoint everywhere (P : list event -> event -> list event -> Prop)
    (past tr : list event) : Prop :=
  match tr with
  | [] => True
  | e :: tr' => P past e tr' /\ everywhere P (past ++ [e]) tr'
  end.

(** The closing of the connection as the specification words it: the run
    closes, once, a connection that [teaclave_connect_frontend_service]
    has opened before. *)
Definition closes_an_open_connection (tr : list event) : Prop :=
  exists (pre : list event) (id : nat) (ret : Z) (post : list event),
    tr = pre ++ CallClose (Client id) ret :: post /\
    (exists address info cert,
        In (CallConnect address info cert (Client id)) pre) /\
    Forall (fun e => is_close e = false) (pre ++ post).

(* ===================================================================== *)
(** ** The platform, as the specification describes it *)
(* ===================================================================== *)

Module Platform.

(** Modelled from the spec: one entry of [argument_spec] (section 3:
    an ordered sequence of {key, default_value, allow_overwrite}); the
    function registry of the platform is not part of the example. *)
Record ArgumentSpec : Type := {
  key : string;
  default_value : string;
  allow_overwrite : bool
}.

(** Modelled from the spec: FunctionDescriptor (section 3), held by the
    function registry of the platform, which is not part of the example. *)
Record FunctionDescriptor : Type := {
  name : string;
  description : string;
  executor_type : string;
  public : bool;
  argument_spec : list ArgumentSpec;
  inputs : list string;
  outputs : list string;
  user_allowlist : list string;
  usage_quota : Z
}.

(** Modelled from the spec: TaskRequest (section 3), received by the task
    service of the platform, which is not part of the example.  Identifiers
    are opaque; the model uses the position in the registry. *)
Record TaskRequest : Type := {
  function_id : nat;
  function_arguments : list (string * string);
  executor : string;
  inputs_ownership : list string;
  outputs_ownership : list string
}.

(** Modelled from the spec: the error taxonomy of section 7, as far as the
    registry and the task service (not part of the example) raise it. *)
Inductive error : Type :=
| RegistrationError
| TaskCreationError
| InvocationError
| ResultNotReady
| TaskError.

(** Modelled from the spec: the states of a task of the platform's task
    service (section 4.4): CREATED, RUNNING, FINISHED, and the terminal
    state of an execution that failed. *)
Inductive stage : Type :=
| CREATED
| RUNNING
| FINISHED (payload : string)
| FAILED.

(** Modelled from the spec: a task as the platform's task service keeps it:
    bound to a function and to arguments, tracked through its lifecycle
    (glossary, Task). *)
Record task : Type := {
  task_function : FunctionDescriptor;
  task_arguments : list (string * string);
  task_stage : stage
}.

(** Modelled from the spec: the state of the platform's registry and task
    service: the registered functions and the tasks, each identified by
    its position. *)
Record state : Type := {
  functions : list FunctionDescriptor;
  tasks : list task
}.

(** Modelled from the spec: reading a key of [function_arguments], a
    key to value mapping (section 3), in the platform's task service. *)
Fixpoint lookup (k : string) (l : list (string * string)) : option string :=
  match l with
  | [] => None
  | (k', v) :: l' => if String.eqb k k' then Some v else lookup k l'
  end.

(** Modelled from the spec: validation of the arguments of a task against
    the [argument_spec] of its function by the platform's task service
    (section 4.4): a key that is given takes the given value when overwrite
    is allowed and is an error otherwise; a key that is not given takes its
    default value. *)
Fixpoint bind_arguments (spec : list ArgumentSpec)
    (given : list (string * string)) : option (list (string * string)) :=
  match spec with
  | [] => Some []
  | a :: spec' =>
      match lookup (key a) given with
      | Some v =>
          if allow_overwrite a
          then option_map (cons (key a, v)) (bind_arguments spec' given)
          else None
      | None =>
          option_map (cons (key a, default_value a))
            (bind_arguments spec' given)
      end
  end.

(** Modelled from the spec: an argument of a task is one that the
    [argument_spec] of the function declares (validation by the platform's
    task service, section 4.4). *)
Definition declared (spec : list ArgumentSpec) (kv : string * string)
  : bool :=
  existsb (fun a => String.eqb (key a) (fst kv)) spec.

(** Modelled from the spec: the platform's task service moves one task to
    another state; the other tasks stay as they are. *)
Fixpoint update {A} (n : nat) (f : A -> A) (l : list A) : list A :=
  match l, n with
  | [], _ => []
  | x :: l', O => f x :: l'
  | x :: l', S n' => x :: update n' f l'
  end.

(** Modelled from the spec: a state transition of one task in the
    platform's task service (section 4.4). *)
Definition set_stage (s : stage) (t : task) : task :=
  {| task_function := task_function t;
     task_arguments := task_arguments t;
     task_stage := s |}.

Section Service.

(** What the platform accepts as a descriptor, and what the executor of
    the platform computes for a function and its arguments ([None]: the
    execution fails). *)
Variable well_formed : FunctionDescriptor -> bool.
Variable execute :
  FunctionDescriptor -> list (string * string) -> option string.

(** Modelled from the spec: [register_function] of the platform's function
    registry (section 4.3): a descriptor that is accepted gets a fresh
    function identifier, else RegistrationError. *)
Definition register_function (d : FunctionDescriptor) (st : state)
  : error + nat * state :=
  if well_formed d
  then inr (length (functions st),
            {| functions := functions st ++ [d]; tasks := tasks st |})
  else inl RegistrationError.

(** Modelled from the spec: [create_task] of the platform's task service
    (section 4.4): TaskCreationError when the function identifier is
    unknown or the arguments fail the validation against the
    [argument_spec]; else a fresh task in state CREATED. *)
Definition create_task (r : TaskRequest) (st : state)
  : error + nat * state :=
  match nth_error (functions st) (function_id r) with
  | None => inl TaskCreationError
  | Some d =>
      if forallb (declared (argument_spec d)) (function_arguments r)
      then
        match bind_arguments (argument_spec d) (function_arguments r) with
        | None => inl TaskCreationError
        | Some args =>
            inr (length (tasks st),
                 {| functions := functions st;
                    tasks := tasks st ++
                             [{| task_function := d;
                                 task_arguments := args;
                                 task_stage := CREATED |}] |})
        end
      else inl TaskCreationError
  end.

(** Modelled from the spec: [invoke_task] of the platform's task service
    (section 4.4): InvocationError when the task is unknown or has been
    invoked already; else CREATED becomes RUNNING.  The call does not
    return the result. *)
Definition invoke_task (task_id : nat) (st : state) : error + state :=
  match nth_error (tasks st) task_id with
  | Some {| task_stage := CREATED |} =>
      inr {| functions := functions st;
             tasks := update task_id (set_stage RUNNING) (tasks st) |}
  | _ => inl InvocationError
  end.

(** Modelled from the spec: the end of the execution of a running task in
    the platform's executor (section 4.4, async completion): RUNNING
    becomes FINISHED with the payload, or the terminal state of a failed
    execution. *)
Definition finish_task (t : task) : task :=
  match task_stage t with
  | RUNNING =>
      set_stage
        match execute (task_function t) (task_arguments t) with
        | Some payload => FINISHED payload
        | None => FAILED
        end t
  | _ => t
  end.

(** Modelled from the spec: asynchronous completion of one task by the
    platform (section 4.4). *)
Definition complete (st : state) (task_id : nat) : state :=
  {| functions := functions st;
     tasks := update task_id finish_task (tasks st) |}.

(** Modelled from the spec: the platform completes tasks, any tasks in any
    order, between the calls of a client (section 4.4: execution may run
    asynchronously inside the platform). *)
Definition completes (st : state) (done : list nat) : state :=
  fold_left complete done st.

(** Modelled from the spec: [get_task_result] of the platform's task
    service (sections 4.4 and 8): the payload of a finished task,
    TaskError for a failed one, and ResultNotReady, never a payload, before
    the task has finished or for a task that does not exist. *)
Definition get_task_result (task_id : nat) (st : state)
  : error + string :=
  match nth_error (tasks st) task_id with
  | Some {| task_stage := FINISHED payload |} => inr payload
  | Some {| task_stage := FAILED |} => inl TaskError
  | _ => inl ResultNotReady
  end.

End Service.

(** Modelled from the spec: the identity/echo function of the platform
    (section 8), which is not part of the example: its result is the value
    of its argument [message]. *)
Definition echo (d : FunctionDescriptor) (args : list (string * string))
  : option string :=
  lookup "message" args.

(** Modelled from the spec: the task of the round trip (section 8),
    created with the arguments {"message": "Hello, Teaclave!"}. *)
Definition hello_task (function_id : nat) : TaskRequest :=
  {| function_id := function_id;
     function_arguments := [("message", "Hello, Teaclave!")]%string;
     executor := "builtin";
     inputs_ownership := [];
     outputs_ownership := [] |}.

End Platform.

(** The argument specification and the arguments of the round trip as the
    two requests of the program spell them. *)
Definition echo_descriptor_text : string :=
  lit ("'arguments' : [{'key': 'message', 'default_value': '', " ++
       "'allow_overwrite': true}]").
Definition echo_arguments_text : string :=
  lit "'function_arguments' : '{\'message\': \'Hello, Teaclave!\'}'".

(** The descriptor that [register_function_request_serialized] spells. *)
Definition echo_descriptor : Platform.FunctionDescriptor :=
  {| Platform.name := "builtin-echo";
     Platform.description := "Native Echo Function";
     Platform.executor_type := "builtin";
     Platform.public := true;
     Platform.argument_spec :=
       [{| Platform.key := "message"; Platform.default_value := EmptyString;
           Platform.allow_overwrite := true |}];
     Platform.inputs := [];
     Platform.outputs := [];
     Platform.user_allowlist := [];
     Platform.usage_quota := -1 |}.

Definition empty_platform : Platform.state :=
  {| Platform.functions := []; Platform.tasks := [] |}.

Definition echo_task (s : Platform.stage) : Platform.task :=
  {| Platform.task_function := echo_descriptor;
     Platform.task_arguments := [("message", "Hello, Teaclave!")]%string;
     Platform.task_stage := s |}.

(* ===================================================================== *)
(** ** Further notions for the properties of the whole program *)
(* ===================================================================== *)

(** The text of [create_task_request_serialized] before and after its
    [%s]. *)
Definition create_task_request_head : string :=
  lit "{ 'request' : 'create_task', 'function_id' : '".
Definition create_task_request_tail : string :=
  lit ("', 'function_arguments' : " ++
       "'{\'message\': \'Hello, Teaclave!\'}', " ++
       "'executor' : 'builtin', 'inputs_ownership' : [], " ++
       "'outputs_ownership' : [] }").

(** The characters that close the identifier field of a response. *)
Definition closing_quote_brace : string := lit "'}".

(** SDK calls that are made on the connection. *)
Definition on_connection (e : event) : bool :=
  match e with
  | CallSetCredential _ _ _ _ => true
  | CallRegisterFunction _ _ _ _ _ _ _ => true
  | CallCreateTask _ _ _ _ _ _ _ => true
  | CallInvokeTask _ _ _ => true
  | CallGetTaskResult _ _ _ _ _ _ => true
  | CallClose _ _ => true
  | _ => false
  end.

Definition is_connect (e : event) : bool :=
  match e with
  | CallConnect _ _ _ _ => true
  | _ => false
  end.

(** A failure after which [main] jumps to [bail]. *)
Definition fatal (e : event) : Prop :=
  failed e /\ is_user_register e = false /\ is_close e = false.

(** The external operations, a login being told apart by its user. *)
Inductive operation : Type :=
| OpLogin (user : string)
| OpUserRegister
| OpConnect
| OpSetCredential
| OpRegisterFunction
| OpCreateTask
| OpInvokeTask
| OpGetTaskResult
| OpClose.

Definition operation_of (e : event) : option operation :=
  match e with
  | Stdout _ => None
  | Stderr _ => None
  | CallLogin user _ _ _ _ => Some (OpLogin user)
  | CallUserRegister _ _ _ _ _ => Some OpUserRegister
  | CallConnect _ _ _ _ => Some OpConnect
  | CallSetCredential _ _ _ _ => Some OpSetCredential
  | CallRegisterFunction _ _ _ _ _ _ _ => Some OpRegisterFunction
  | CallCreateTask _ _ _ _ _ _ _ => Some OpCreateTask
  | CallInvokeTask _ _ _ => Some OpInvokeTask
  | CallGetTaskResult _ _ _ _ _ _ => Some OpGetTaskResult
  | CallClose _ _ => Some OpClose
  end.

(** The operations of a trace, in order. *)
Fixpoint operations (tr : list event) : list operation :=
  match tr with
  | [] => []
  | e :: tr' =>
      match operation_of e with
      | Some o => o :: operations tr'
      | None => operations tr'
      end
  end.

(* ===================================================================== *)
(** ** Facts about the library routines *)
(* ===================================================================== *)

Module LibcFacts.

Local Open Scope string_scope.

Ltac red_str :=
  cbn [c_str all_chars Libc.skip_space Libc.scan_word String.append
       String.length Libc.sscanf_into Libc.ordinary app String.prefix
       at_word_end andb].

Lemma c_str_no_NUL s : all_chars not_NUL (c_str s) = true.
Proof.
  induction s as [|c s IH]; red_str; [reflexivity|].
  destruct (Ascii.eqb c NUL) eqn:E; red_str; [reflexivity|].
  unfold not_NUL at 1. now rewrite E.
Qed.

Lemma c_str_app p s :
  all_chars not_NUL p = true -> c_str (p ++ s) = p ++ c_str s.
Proof.
  induction p as [|c p IH]; red_str; [reflexivity|].
  unfold not_NUL at 1. intros H. apply andb_true_iff in H as [Hc Hp].
  apply negb_true_iff in Hc. rewrite Hc. now rewrite IH.
Qed.

Lemma skip_space_spec s :
  exists ws, s = ws ++ Libc.skip_space s /\
             all_chars Libc.isspace ws = true /\
             match Libc.skip_space s with
             | EmptyString => True
             | String c _ => Libc.isspace c = false
             end.
Proof.
  induction s as [|c s (ws & E & Hws & Hhd)]; red_str.
  - exists EmptyString. auto.
  - destruct (Libc.isspace c) eqn:Hc.
    + exists (String c ws). red_str. rewrite Hc, Hws. rewrite <- E. auto.
    + exists EmptyString. red_str. auto.
Qed.

Lemma scan_word_spec w s :
  exists tail, s = Libc.scan_word w s ++ tail /\
               (String.length (Libc.scan_word w s) <= w)%nat /\
               all_chars not_space (Libc.scan_word w s) = true /\
               (String.length (Libc.scan_word w s) = w \/ at_word_end tail).
Proof.
  revert s. induction w as [|w IH]; intros s.
  - exists s. destruct s; red_str; auto.
  - destruct s as [|c s]; red_str.
    + exists EmptyString. red_str. auto with arith.
    + destruct (Libc.isspace c) eqn:Hc.
      * exists (String c s). red_str. auto with arith.
      * destruct (IH s) as (tail & E & Hl & Hn & Hm).
        exists tail. red_str. unfold not_space at 1. rewrite Hc, Hn.
        rewrite <- E. repeat split; auto with arith.
        destruct Hm; auto.
Qed.

Lemma scan_word_sub w s :
  all_chars not_NUL s = true ->
  all_chars not_NUL (Libc.scan_word w s) = true.
Proof.
  revert s. induction w as [|w IH]; intros [|c s]; red_str; auto.
  intros H. apply andb_true_iff in H as [Hc Hs].
  destruct (Libc.isspace c); red_str; [reflexivity|].
  now rewrite Hc, IH.
Qed.

Lemma skip_space_sub s :
  all_chars not_NUL s = true ->
  all_chars not_NUL (Libc.skip_space s) = true.
Proof.
  induction s as [|c s IH]; red_str; auto.
  intros H. destruct (Libc.isspace c).
  - apply andb_true_iff in H as [_ Hs]. auto.
  - exact H.
Qed.

Lemma all_chars_app_r p a b :
  all_chars p (a ++ b) = true -> all_chars p b = true.
Proof.
  induction a as [|c a IH]; red_str; auto.
  intros H. apply andb_true_iff in H as [_ H]. auto.
Qed.

(** The input starts with the ordinary characters of the format. *)
Lemma sscanf_into_prefix p fmt rest dest :
  Libc.sscanf_into (Libc.ordinary p ++ fmt) (p ++ rest) dest =
  Libc.sscanf_into fmt rest dest.
Proof.
  induction p as [|c p IH]; red_str; [reflexivity|].
  now rewrite Ascii.eqb_refl.
Qed.

(** It does not: nothing is stored. *)
Lemma sscanf_into_mismatch p fmt input dest :
  String.prefix p input = false ->
  Libc.sscanf_into (Libc.ordinary p ++ fmt) input dest = dest.
Proof.
  revert input. induction p as [|c p IH]; intros [|a input]; red_str;
    try discriminate; try reflexivity.
  destruct (Ascii.eqb_spec a c) as [->|N]; [|reflexivity].
  destruct (ascii_dec c c) as [_|N]; [|contradiction]. apply IH.
Qed.

Lemma sscanf_mismatch p fmt response dest :
  String.prefix p (c_str response) = false ->
  Libc.sscanf response (Libc.ordinary p ++ fmt) dest = dest.
Proof. apply sscanf_into_mismatch. Qed.

(** Whatever the input, the destination keeps its value or receives the
    word after the prefix. *)
Lemma sscanf_into_result p w : forall input dest,
  Libc.sscanf_into (Libc.ordinary p ++ [Libc.ConvS w]) input dest = dest \/
  exists rest,
    input = p ++ rest /\
    Libc.sscanf_into (Libc.ordinary p ++ [Libc.ConvS w]) input dest =
      Libc.scan_word w (Libc.skip_space rest).
Proof.
  induction p as [|c p IH]; intros input dest.
  - red_str.
    destruct (Libc.scan_word w (Libc.skip_space input)) eqn:E;
      [now left|].
    right. exists input. split; [reflexivity|]. now rewrite E.
  - red_str.
    destruct input as [|a input]; [now left|].
    destruct (Ascii.eqb_spec a c) as [->|N]; [|now left].
    destruct (IH input dest) as [E|(rest & -> & E)]; [now left|].
    right. exists rest. split; [reflexivity|exact E].
Qed.

(** With an empty destination the result is the word in every case in
    which the prefix matches. *)
Lemma sscanf_word p w rest :
  all_chars not_NUL p = true ->
  Libc.sscanf (p ++ rest) (Libc.ordinary p ++ [Libc.ConvS w]) EmptyString =
  Libc.scan_word w (Libc.skip_space (c_str rest)).
Proof.
  intros Hp. unfold Libc.sscanf. rewrite (c_str_app _ _ Hp).
  rewrite sscanf_into_prefix. red_str.
  now destruct (Libc.scan_word w (Libc.skip_space (c_str rest))).
Qed.

Lemma sscanf_bounded p w response :
  let id := Libc.sscanf response (Libc.ordinary p ++ [Libc.ConvS w])
              EmptyString in
  (String.length id <= w)%nat /\
  all_chars not_space id = true /\
  all_chars not_NUL id = true.
Proof.
  cbv zeta. unfold Libc.sscanf.
  destruct (sscanf_into_result p w (c_str response) EmptyString)
    as [->|(rest & E & ->)].
  - repeat split; auto with arith.
  - destruct (scan_word_spec w (Libc.skip_space rest))
      as (tail & _ & Hl & Hn & _).
    repeat split; auto.
    apply scan_word_sub, skip_space_sub.
    apply (all_chars_app_r _ p). rewrite <- E. apply c_str_no_NUL.
Qed.

End LibcFacts.

Module RequestFacts.

Lemma contains_app_r needle a b :
  contains needle b = true -> contains needle (a ++ b) = true.
Proof.
  intros H. induction a as [|c a IH]; [exact H|].
  cbn [String.append contains]. rewrite IH. apply orb_true_r.
Qed.

Lemma take_all s : forall n,
  (String.length s <= n)%nat -> Libc.take n s = s.
Proof.
  induction s as [|c s IH]; intros [|n] H; cbn in *; try reflexivity;
    try lia.
  rewrite IH; [reflexivity|lia].
Qed.

Lemma length_app a b :
  String.length (a ++ b) = (String.length a + String.length b)%nat.
Proof. induction a; cbn; auto. Qed.

(** The request built by [snprintf] for a function identifier of at most
    45 characters: nothing is cut off. *)
Lemma create_task_request_shape function_id :
  (String.length (c_str function_id) <= 45)%nat ->
  Libc.snprintf BUFFER_SIZE create_task_request_serialized [function_id] =
  (lit "{ 'request' : 'create_task', 'function_id' : '" ++
   c_str function_id ++
   lit ("', 'function_arguments' : " ++
        "'{\'message\': \'Hello, Teaclave!\'}', " ++
        "'executor' : 'builtin', 'inputs_ownership' : [], " ++
        "'outputs_ownership' : [] }"))%string.
Proof.
  intros H. unfold Libc.snprintf.
  change (Libc.format create_task_request_serialized [function_id])
    with (lit "{ 'request' : 'create_task', 'function_id' : '" ++
          c_str function_id ++
          lit ("', 'function_arguments' : " ++
               "'{\'message\': \'Hello, Teaclave!\'}', " ++
               "'executor' : 'builtin', 'inputs_ownership' : [], " ++
               "'outputs_ownership' : [] }"))%string.
  apply take_all. rewrite !length_app.
  match goal with
  | |- (String.length ?a + (_ + String.length ?b) <= _)%nat =>
      let la := eval vm_compute in (String.length a) in
      let lb := eval vm_compute in (String.length b) in
      change (String.length a) with la; change (String.length b) with lb
  end.
  unfold BUFFER_SIZE. lia.
Qed.

End RequestFacts.

(* ===================================================================== *)
(** ** Facts about the platform model *)
(* ===================================================================== *)

Module PlatformFacts.
Import Platform.

Lemma update_length {A} n (f : A -> A) l : length (update n f l) = length l.
Proof.
  revert n. induction l as [|x l IH]; intros [|n]; cbn; auto.
Qed.

Lemma nth_error_update {A} (f : A -> A) l : forall n m,
  nth_error (update n f l) m =
  if Nat.eqb n m then option_map f (nth_error l m) else nth_error l m.
Proof.
  induction l as [|x l IH]; intros [|n] [|m]; cbn; auto.
  now destruct (Nat.eqb n m).
Qed.

Lemma nth_error_snoc {A} (l : list A) x :
  nth_error (l ++ [x]) (length l) = Some x.
Proof. induction l; cbn; auto. Qed.


Section Service.

Variable well_formed : FunctionDescriptor -> bool.
Variable execute :
  FunctionDescriptor -> list (string * string) -> option string.


(** A running task stays as it is until it is completed, and then
    holds the result of its function for good. *)
Lemma completes_running d args task_id done : forall st,
  nth_error (tasks st) task_id =
    Some {| task_function := d; task_arguments := args;
            task_stage := RUNNING |} ->
  nth_error (tasks (completes execute st done)) task_id =
    Some {| task_function := d; task_arguments := args;
            task_stage :=
              if existsb (Nat.eqb task_id) done
              then match execute d args with
                   | Some payload => FINISHED payload
                   | None => FAILED
                   end
              else RUNNING |}.
Proof.
  assert (Hdone : forall done st s,
             s <> RUNNING ->
             nth_error (tasks st) task_id =
               Some {| task_function := d; task_arguments := args;
                       task_stage := s |} ->
             nth_error (tasks (completes execute st done)) task_id =
               Some {| task_function := d; task_arguments := args;
                       task_stage := s |}).
  { clear done. induction done as [|t done IH]; intros st s Hs H;
      cbn; [exact H|].
    apply IH; [exact Hs|]. cbn. rewrite nth_error_update, H.
    destruct (Nat.eqb t task_id); [|reflexivity].
    cbn. unfold finish_task. cbn. destruct s; congruence. }
  induction done as [|t done IH]; intros st H; cbn; [exact H|].
  destruct (Nat.eqb_spec task_id t) as [<-|N].
  - cbn. apply Hdone; [destruct (execute d args); discriminate|].
    cbn. rewrite nth_error_update, Nat.eqb_refl, H. reflexivity.
  - cbn. apply IH. cbn. rewrite nth_error_update, H.
    destruct (Nat.eqb_spec t task_id) as [E|_]; [congruence|reflexivity].
Qed.

End Service.

End PlatformFacts.

(* ===================================================================== *)
(** ** Reasoning about traces *)
(* ===================================================================== *)

Lemma everywhere_split P tr : forall past,
  everywhere P past tr ->
  forall pre e post, tr = pre ++ e :: post -> P (past ++ pre) e post.
Proof.
  induction tr as [|x tr IH]; intros past H pre e post E.
  - destruct pre; discriminate.
  - destruct H as [Hx Htr]. destruct pre as [|y pre]; simpl in E.
    + injection E as -> ->. now rewrite app_nil_r.
    + injection E as -> ->.
      specialize (IH _ Htr pre e post eq_refl).
      now rewrite <- app_assoc in IH.
Qed.

Lemma everywhere_nil P tr :
  everywhere P [] tr ->
  forall pre e post, tr = pre ++ e :: post -> P pre e post.
Proof.
  intros H pre e post E. exact (everywhere_split P tr [] H pre e post E).
Qed.


(** Symbolic execution of [main]: every external answer is named and every
    test on a return code is split. *)
Ltac exec_reduce :=
  cbv beta iota zeta delta
    [world frontend_client observed negb handle_of trace result final_world].

Ltac exec_step :=
  match goal with
  | |- context [login ?s ?u ?p ?t ?l ?w] =>
      is_var w; destruct (login s u p t l w) as [[[? ?] ?] ?] eqn:?
  | |- context [user_register ?s ?u ?p ?t ?l ?w] =>
      is_var w; destruct (user_register s u p t l w) as [? ?] eqn:?
  | |- context [teaclave_connect_frontend_service ?s ?u ?p ?t ?w] =>
      is_var w;
      destruct (teaclave_connect_frontend_service s u p t w) as [[?|] ?] eqn:?
  | |- context [teaclave_frontend_set_credential ?s ?u ?p ?t ?w] =>
      is_var w;
      destruct (teaclave_frontend_set_credential s u p t w) as [? ?] eqn:?
  | |- context [teaclave_register_function_serialized ?s ?u ?p ?t ?l ?w] =>
      is_var w;
      destruct (teaclave_register_function_serialized s u p t l w)
        as [[[? ?] ?] ?] eqn:?
  | |- context [teaclave_create_task_serialized ?s ?u ?p ?t ?l ?w] =>
      is_var w;
      destruct (teaclave_create_task_serialized s u p t l w)
        as [[[? ?] ?] ?] eqn:?
  | |- context [teaclave_invoke_task ?s ?u ?p ?w] =>
      is_var w; destruct (teaclave_invoke_task s u p w) as [? ?] eqn:?
  | |- context [teaclave_get_task_result ?s ?u ?p ?t ?l ?w] =>
      is_var w;
      destruct (teaclave_get_task_result s u p t l w) as [[[? ?] ?] ?] eqn:?
  | |- context [teaclave_close_frontend_service ?s ?u ?w] =>
      is_var w; destruct (teaclave_close_frontend_service s u w) as [? ?] eqn:?
  | |- context [?r =? 0] => is_var r; destruct (Z.eqb_spec r 0) as [->|?]
  end; exec_reduce.

Ltac exec_main :=
  unfold main, main_body, bail_block, bind, extern, when, printf,
    fprintf_stderr, emit, goto_bail, ret_, set_frontend_client,
    get_frontend_client, finish, nonzero;
  exec_reduce; repeat exec_step.

(* ===================================================================== *)
(** ** Properties of every run *)
(* ===================================================================== *)

Ltac positions P :=
  apply (everywhere_nil P); exec_main; cbn [rev app everywhere];
  repeat match goal with
         | |- _ /\ _ => split
         | |- True => exact I
         end;
  cbv beta.

Ltac find_in :=
  cbn [In app]; repeat first [left; reflexivity | right].

Section Runs.

Context {W : Type} (sdk : Extern W).
Variables address info cert : string.

(** C6. In every run, each function or task operation is made on a
    connection returned by [teaclave_connect_frontend_service] on which
    [teaclave_frontend_set_credential] has been called before and has
    returned 0. *)
Theorem credential_before_privileged :
  forall (w : W) (pre : list event) (e : event) (post : list event),
    trace (main sdk address info cert w) = pre ++ e :: post ->
    privileged e = true ->
    exists (id : nat) (token : string),
      client_of e = Client id /\
      In (CallConnect address info cert (Client id)) pre /\
      In (CallSetCredential (Client id) user_id token 0) pre.
Proof.
  intro w.
  positions (fun pre e (post : list event) =>
    privileged e = true ->
    exists (id : nat) (token : string),
      client_of e = Client id /\
      In (CallConnect address info cert (Client id)) pre /\
      In (CallSetCredential (Client id) user_id token 0) pre).
  all: cbn [privileged client_of]; intro; try discriminate.
  all: do 2 eexists; split; [reflexivity|split; find_in].
Qed.

(** C1. The task lifecycle is driven in the order create, invoke, result:
    [teaclave_invoke_task] is called only after
    [teaclave_create_task_serialized] has returned 0, on the task identifier
    that [sscanf] read out of its response; [teaclave_get_task_result] is
    called only after [teaclave_invoke_task] has returned 0 for the same
    identifier; after a non-zero return of one of the three no external
    call but the closing of the connection is made (so none is retried) and
    the run ends in [exit(-1)]. *)
Theorem lifecycle_order :
  forall (w : W) (pre : list event) (e : event) (post : list event),
    trace (main sdk address info cert w) = pre ++ e :: post ->
    (forall client task_id ret,
        e = CallInvokeTask client task_id ret ->
        exists request buffer capacity response len,
          In (CallCreateTask client request buffer capacity 0 response len)
             pre /\
          task_id = Libc.sscanf response task_id_format EmptyString) /\
    (forall client task_id capacity ret res len,
        e = CallGetTaskResult client task_id capacity ret res len ->
        In (CallInvokeTask client task_id 0) pre) /\
    (lifecycle e = true -> failed e ->
       Forall (fun e' => is_call e' = true -> is_close e' = true) post /\
       Exists (fun e' => is_close e' = true) post /\
       result (main sdk address info cert w) = Exited (-1)).
Proof.
  intro w.
  positions (fun pre e (post : list event) =>
    (forall client task_id ret,
        e = CallInvokeTask client task_id ret ->
        exists request buffer capacity response len,
          In (CallCreateTask client request buffer capacity 0 response len)
             pre /\
          task_id = Libc.sscanf response task_id_format EmptyString) /\
    (forall client task_id capacity ret res len,
        e = CallGetTaskResult client task_id capacity ret res len ->
        In (CallInvokeTask client task_id 0) pre) /\
    (lifecycle e = true -> failed e ->
       Forall (fun e' => is_call e' = true -> is_close e' = true) post /\
       Exists (fun e' => is_close e' = true) post /\
       result (main sdk address info cert w) = Exited (-1))).
  all: try (intros; discriminate).
  all: try (intros ? ? ? [= <- <- <-]; do 5 eexists; split;
            [find_in | reflexivity]).
  all: try (intros ? ? ? ? ? ? [= <- <- <- <- <- <-]; find_in).
  all: cbn [lifecycle failed]; intros _ Hf; try contradiction.
  all: split; [|split].
  all: try reflexivity.
  all: try (repeat constructor; cbn [is_call is_close]; intros;
            reflexivity || discriminate).
  all: first [ apply Exists_cons_hd; reflexivity
             | apply Exists_cons_tl, Exists_cons_hd; reflexivity ].
Qed.

(** C9. The capacity that [teaclave_create_task_serialized] receives for
    its response is the length that the preceding call of
    [teaclave_register_function_serialized] stored in
    [serialized_response_len], which had been given [BUFFER_SIZE]; the
    response buffer itself is passed zeroed. *)
Theorem create_task_capacity :
  forall (w : W) (pre : list event) client request buffer capacity ret
         response len (post : list event),
    trace (main sdk address info cert w) =
      pre ++ CallCreateTask client request buffer capacity ret response len
          :: post ->
    buffer = EmptyString /\
    exists response',
      In (CallRegisterFunction client register_function_request_serialized
            EmptyString BUFFER_SIZE 0 response' capacity) pre.
Proof.
  intros w pre client request buffer capacity ret response len post H.
  assert (G : forall pre e post,
             trace (main sdk address info cert w) = pre ++ e :: post ->
             forall client request buffer capacity ret response len,
               e = CallCreateTask client request buffer capacity ret
                     response len ->
               buffer = EmptyString /\
               exists response',
                 In (CallRegisterFunction client
                       register_function_request_serialized
                       EmptyString BUFFER_SIZE 0 response' capacity) pre).
  { positions (fun pre e (post : list event) =>
      forall client request buffer capacity ret response len,
        e = CallCreateTask client request buffer capacity ret response len ->
        buffer = EmptyString /\
        exists response',
          In (CallRegisterFunction client
                register_function_request_serialized
                EmptyString BUFFER_SIZE 0 response' capacity) pre).
    all: try (intros; discriminate).
    all: intros ? ? ? ? ? ? ? [= <- <- <- <- <- <- <-]; split;
      [reflexivity | eexists; find_in]. }
  exact (G _ _ _ H _ _ _ _ _ _ _ eq_refl).
Qed.

Ltac close_report_case :=
  unfold close_report;
  try match goal with
      | H : ?z <> 0 |- context [?z =? 0] =>
          destruct (Z.eqb_spec z 0); [contradiction|]
      end.

(** C3. After the failure of any call that [main] treats as fatal (every
    call but [user_register] and the closing itself) the rest of the run
    is: the diagnostic of the failure on [stderr], one call of
    [teaclave_close_frontend_service], the diagnostic of the closing on
    [stderr] when that call did not return 0, and [exit(-1)], a process
    status of 255 whatever the closing returned. *)
Theorem fatal_failure_closes_then_exits :
  forall (w : W) (pre : list event) (e : event) (post : list event),
    trace (main sdk address info cert w) = pre ++ e :: post ->
    failed e -> is_user_register e = false -> is_close e = false ->
    exists (h : handle) (ret : Z),
      post = Stderr (diagnostic e) :: CallClose h ret :: close_report ret /\
      result (main sdk address info cert w) = Exited (-1) /\
      process_status (result (main sdk address info cert w)) = 255.
Proof.
  intro w.
  positions (fun (pre : list event) e (post : list event) =>
    failed e -> is_user_register e = false -> is_close e = false ->
    exists (h : handle) (ret : Z),
      post = Stderr (diagnostic e) :: CallClose h ret :: close_report ret /\
      result (main sdk address info cert w) = Exited (-1) /\
      process_status (result (main sdk address info cert w)) = 255).
  all: cbn [failed is_user_register is_close]; intros Hf Hu Hc;
    try discriminate; try contradiction.
  all: match goal with
       | |- exists h ret, _ :: CallClose ?h0 ?z :: _ = _ /\ _ =>
           exists h0, z
       end.
  all: split; [close_report_case; reflexivity | split; reflexivity].
Qed.

(** C4. A failure of [user_register] does not end the run: it is reported
    and the new user is logged in next; when that login succeeds the
    connection to the frontend service is opened, and when no later call
    fails the task result is fetched and [main] returns 0.  The failure of
    any other call ends the run: no external call follows it but the
    closing of the connection, and the process ends with a non-zero
    value. *)
Theorem user_register_failure_is_not_fatal :
  forall (w : W) (pre : list event) (e : event) (post : list event),
    trace (main sdk address info cert w) = pre ++ e :: post ->
    failed e ->
    (is_user_register e = true ->
       exists (ret : Z) (token : string) (post' : list event),
         post = Stderr (diagnostic e)
                :: Stdout ("[+] Login" ++ nl)%string
                :: CallLogin user_id user_password BUFFER_SIZE ret token
                :: post' /\
         (ret = 0 ->
            exists (h : handle) (post'' : list event),
              post' = Stdout ("connect frontend service" ++ nl)%string
                      :: CallConnect address info cert h :: post'') /\
         (Forall (fun e' => ~ failed e') post ->
            result (main sdk address info cert w) = Returned 0 /\
            Exists (fun e' => exists h t c r l,
                        e' = CallGetTaskResult h t c 0 r l) post)) /\
    (is_user_register e = false ->
       Forall (fun e' => is_call e' = true -> is_close e' = true) post /\
       exists status : Z,
         status <> 0 /\
         (result (main sdk address info cert w) = Exited status \/
          result (main sdk address info cert w) = Returned status)).
Proof.
  intro w.
  positions (fun (pre : list event) e (post : list event) =>
    failed e ->
    (is_user_register e = true ->
       exists (ret : Z) (token : string) (post' : list event),
         post = Stderr (diagnostic e)
                :: Stdout ("[+] Login" ++ nl)%string
                :: CallLogin user_id user_password BUFFER_SIZE ret token
                :: post' /\
         (ret = 0 ->
            exists (h : handle) (post'' : list event),
              post' = Stdout ("connect frontend service" ++ nl)%string
                      :: CallConnect address info cert h :: post'') /\
         (Forall (fun e' => ~ failed e') post ->
            result (main sdk address info cert w) = Returned 0 /\
            Exists (fun e' => exists h t c r l,
                        e' = CallGetTaskResult h t c 0 r l) post)) /\
    (is_user_register e = false ->
       Forall (fun e' => is_call e' = true -> is_close e' = true) post /\
       exists status : Z,
         status <> 0 /\
         (result (main sdk address info cert w) = Exited status \/
          result (main sdk address info cert w) = Returned status))).
  all: cbn [failed is_user_register]; intros Hf; try contradiction.
  all: split; intros Hu; try discriminate.
  (* user_register failed *)
  all: try (lazymatch goal with |- @ex Z _ => idtac end;
            do 3 eexists; split; [reflexivity|]; split).
  all: try (lazymatch goal with |- _ = 0 -> _ => idtac end;
            intros E; try (exfalso; congruence);
            do 2 eexists; reflexivity).
  all: try (lazymatch goal with |- Forall _ _ -> _ => idtac end;
            intros HF;
            repeat match goal with
                   | H : Forall _ (_ :: _) |- _ =>
                       apply Forall_cons_iff in H; destruct H as [? H]
                   end;
            cbn [failed] in *;
            try (exfalso;
                 match goal with
                 | H : ~ (?z <> 0), H' : ?z <> 0 |- _ => exact (H H')
                 | H : ~ (Null = Null) |- _ => exact (H eq_refl)
                 end)).
  all: try (lazymatch goal with |- _ = Returned 0 /\ _ => idtac end;
            split; [reflexivity|];
            repeat first
              [ apply Exists_cons_hd; do 5 eexists; reflexivity
              | apply Exists_cons_tl ]).
  (* any other call failed *)
  all: split;
    [ repeat constructor; cbn [is_call is_close]; intros;
      reflexivity || discriminate
    | first [ exists (-1); split; [lia|left; reflexivity]
            | eexists; split; [eassumption|right; reflexivity] ] ].
Qed.

(** C2 (as the program has it). Every run, ending by [return] or by
    [exit], calls [teaclave_close_frontend_service] exactly once, after all
    other external calls; nothing follows it but the report of its own
    failure.  Whenever [teaclave_connect_frontend_service] was called in
    the run, the connection is closed on what that call returned: the
    client it opened, or NULL when it failed. *)
Theorem close_exactly_once_on_every_path :
  forall (w : W),
    exists (pre : list event) (h : handle) (ret : Z),
      trace (main sdk address info cert w) =
        pre ++ CallClose h ret :: close_report ret /\
      Forall (fun e => is_close e = false) pre /\
      (forall h', In (CallConnect address info cert h') pre -> h = h').
Proof.
  intro w. exec_main.
  all: match goal with
       | |- exists pre h ret, rev (CallClose ?h0 ?z :: ?rest) = _ /\ _ =>
           exists (rev rest), h0, z
       | |- exists pre h ret, rev (_ :: CallClose ?h0 ?z :: ?rest) = _ /\ _ =>
           exists (rev rest), h0, z
       end.
  all: cbn [rev app]; split; [close_report_case; reflexivity|].
  all: split; [repeat constructor|].
  all: intros h' Hin; cbn [In] in Hin;
    repeat (destruct Hin as [Hin|Hin]; [try discriminate|]);
    try contradiction.
  all: now injection Hin.
Qed.

(** C10. A response that does not start with the expected prefix leaves the
    identifier empty, nothing is reported, and the next operation is
    carried out with the empty identifier: the task is created for the
    function empty function identifier, the empty task identifier is invoked. *)
Theorem parse_failure_is_silent :
  forall (w : W) (pre : list event) (e : event) (post : list event),
    trace (main sdk address info cert w) = pre ++ e :: post ->
    (forall client request buffer capacity response len,
        e = CallRegisterFunction client request buffer capacity 0
              response len ->
        String.prefix function_id_prefix (c_str response) = false ->
        Libc.sscanf response function_id_format EmptyString = EmptyString /\
        exists ret response' len' post',
          post = Stdout ("[+] function_id: " ++ nl)%string
                 :: CallCreateTask client
                      (Libc.snprintf BUFFER_SIZE
                         create_task_request_serialized [EmptyString])
                      EmptyString len ret response' len'
                 :: post') /\
    (forall client request buffer capacity response len,
        e = CallCreateTask client request buffer capacity 0 response len ->
        String.prefix task_id_prefix (c_str response) = false ->
        Libc.sscanf response task_id_format EmptyString = EmptyString /\
        exists ret post',
          post = Stdout ("[+] task_id: " ++ nl)%string
                 :: CallInvokeTask client EmptyString ret :: post').
Proof.
  intro w.
  positions (fun (pre : list event) e (post : list event) =>
    (forall client request buffer capacity response len,
        e = CallRegisterFunction client request buffer capacity 0
              response len ->
        String.prefix function_id_prefix (c_str response) = false ->
        Libc.sscanf response function_id_format EmptyString = EmptyString /\
        exists ret response' len' post',
          post = Stdout ("[+] function_id: " ++ nl)%string
                 :: CallCreateTask client
                      (Libc.snprintf BUFFER_SIZE
                         create_task_request_serialized [EmptyString])
                      EmptyString len ret response' len'
                 :: post') /\
    (forall client request buffer capacity response len,
        e = CallCreateTask client request buffer capacity 0 response len ->
        String.prefix task_id_prefix (c_str response) = false ->
        Libc.sscanf response task_id_format EmptyString = EmptyString /\
        exists ret post',
          post = Stdout ("[+] task_id: " ++ nl)%string
                 :: CallInvokeTask client EmptyString ret :: post')).
  all: try (intros; discriminate).
  all: intros client request buffer capacity response len E Hp;
    try (exfalso; congruence);
    injection E as <- <- <- <- <- <-.
  all: first
    [ pose proof (LibcFacts.sscanf_mismatch function_id_prefix
                    [Libc.ConvS 45] _ EmptyString Hp) as Hs;
      fold function_id_format in Hs
    | pose proof (LibcFacts.sscanf_mismatch task_id_prefix
                    [Libc.ConvS 41] _ EmptyString Hp) as Hs;
      fold task_id_format in Hs ].
  all: split; [exact Hs|]; rewrite Hs.
  all: do 2 eexists; try (do 2 eexists); reflexivity.
Qed.

(** C5. When [teaclave_connect_frontend_service] returns NULL and the SDK
    closes connections as modelled, the program calls
    [teaclave_close_frontend_service] on NULL, the call returns a failure
    code, the program reports it on [stderr] and ends in [exit(-1)]. *)
Theorem closing_unopened_connection_returns :
  forall (opened : W -> list nat) (w : W) (pre post : list event),
    closes_as_modelled sdk opened ->
    trace (main sdk address info cert w) =
      pre ++ CallConnect address info cert Null :: post ->
    exists ret : Z,
      ret <> 0 /\
      post = [ Stderr ("[-] Failed to connect to the frontend service." ++ nl);
               CallClose Null ret;
               Stderr ("[-] Failed to close the frontend service client."
                       ++ nl) ]%string /\
      result (main sdk address info cert w) = Exited (-1).
Proof.
  intros opened w pre post Hmodel H.
  assert (G : forall pre e post,
             trace (main sdk address info cert w) = pre ++ e :: post ->
             e = CallConnect address info cert Null ->
             exists ret : Z,
               ret <> 0 /\
               post = [ Stderr ("[-] Failed to connect to the frontend service."
                                ++ nl);
                        CallClose Null ret;
                        Stderr ("[-] Failed to close the frontend service client."
                                ++ nl) ]%string /\
               result (main sdk address info cert w) = Exited (-1)).
  { clear H pre post.
    positions (fun (pre : list event) e (post : list event) =>
      e = CallConnect address info cert Null ->
      exists ret : Z,
        ret <> 0 /\
        post = [ Stderr ("[-] Failed to connect to the frontend service."
                         ++ nl);
                 CallClose Null ret;
                 Stderr ("[-] Failed to close the frontend service client."
                         ++ nl) ]%string /\
        result (main sdk address info cert w) = Exited (-1)).
    all: intros E; try discriminate.
    all: match goal with
         | Hc : teaclave_close_frontend_service sdk Null ?w0 = _ |- _ =>
             pose proof (Hmodel None w0) as HM;
             cbn [handle_of] in HM; rewrite Hc in HM;
             cbn [close_model fst] in HM; destruct HM as [[HM _] _]
         end.
    all: try (specialize (HM eq_refl); discriminate).
    all: eexists; split; [eassumption|split; reflexivity]. }
  exact (G _ _ _ H eq_refl).
Qed.

(** The payload of a successful [teaclave_get_task_result] is what the
    program prints next, on [stdout]. *)
Lemma task_result_is_printed :
  forall (w : W) (pre : list event) (e : event) (post : list event),
    trace (main sdk address info cert w) = pre ++ e :: post ->
    forall client task_id capacity payload len,
      e = CallGetTaskResult client task_id capacity 0 payload len ->
      exists post',
        post = Stdout (Libc.format ("[+] Task result in string: %s" ++ nl)
                         [payload])%string :: post'.
Proof.
  intro w.
  positions (fun (pre : list event) e (post : list event) =>
    forall client task_id capacity payload len,
      e = CallGetTaskResult client task_id capacity 0 payload len ->
      exists post',
        post = Stdout (Libc.format ("[+] Task result in string: %s" ++ nl)
                         [payload])%string :: post').
  all: try (intros; discriminate).
  all: intros client task_id capacity payload len E;
    try (exfalso; congruence);
    injection E as <- <- <- <- <-; eexists; reflexivity.
Qed.

End Runs.

(* ===================================================================== *)
(** ** Identifier parsing *)
(* ===================================================================== *)

Local Open Scope string_scope.

(** C7. Identifier parsing is bounded and based on the prefix.  When the
    response is the prefix followed by [rest], the identifier stored by
    [sscanf] in the zeroed buffer is the run of characters that are not
    white space which follows the prefix (after white space, which [%s]
    skips), cut after 45 characters for [function_id] and after 41 for
    [task_id].  Whatever the response, the stored identifier has at most 45
    (41) characters, none of which is white space or NUL, so that with its
    terminating NUL it fits the [BUFFER_SIZE] bytes of the destination. *)
Theorem identifier_parsing_is_bounded :
  forall (rest response : string),
    let function_id :=
      Libc.sscanf (function_id_prefix ++ rest) function_id_format EmptyString in
    let task_id :=
      Libc.sscanf (task_id_prefix ++ rest) task_id_format EmptyString in
    (exists ws tail,
        c_str rest = ws ++ function_id ++ tail /\
        all_chars Libc.isspace ws = true /\
        (String.length function_id = 45%nat \/ at_word_end tail)) /\
    (exists ws tail,
        c_str rest = ws ++ task_id ++ tail /\
        all_chars Libc.isspace ws = true /\
        (String.length task_id = 41%nat \/ at_word_end tail)) /\
    (let id := Libc.sscanf response function_id_format EmptyString in
     (String.length id <= 45)%nat /\
     all_chars not_space id = true /\
     all_chars not_NUL id = true /\
     Z.of_nat (String.length id) + 1 <= BUFFER_SIZE) /\
    (let id := Libc.sscanf response task_id_format EmptyString in
     (String.length id <= 41)%nat /\
     all_chars not_space id = true /\
     all_chars not_NUL id = true /\
     Z.of_nat (String.length id) + 1 <= BUFFER_SIZE).
Proof.
  intros rest response. cbv zeta. unfold function_id_format, task_id_format.
  assert (Hword : forall p w,
             all_chars not_NUL p = true ->
             exists ws tail,
               c_str rest =
                 ws ++ Libc.sscanf (p ++ rest)
                         (Libc.ordinary p ++ [Libc.ConvS w]) EmptyString ++ tail /\
               all_chars Libc.isspace ws = true /\
               (String.length
                  (Libc.sscanf (p ++ rest)
                     (Libc.ordinary p ++ [Libc.ConvS w]) EmptyString) = w \/
                at_word_end tail)).
  { intros p w Hp. rewrite (LibcFacts.sscanf_word p w rest Hp).
    destruct (LibcFacts.skip_space_spec (c_str rest)) as (ws & E & Hws & _).
    destruct (LibcFacts.scan_word_spec w (Libc.skip_space (c_str rest)))
      as (tail & E' & _ & _ & Hm).
    exists ws, tail. rewrite <- E'. auto. }
  assert (Hfit : forall p w,
             (w <= 45)%nat ->
             let id := Libc.sscanf response
                         (Libc.ordinary p ++ [Libc.ConvS w]) EmptyString in
             (String.length id <= w)%nat /\
             all_chars not_space id = true /\
             all_chars not_NUL id = true /\
             Z.of_nat (String.length id) + 1 <= BUFFER_SIZE).
  { intros p w Hw. cbv zeta.
    destruct (LibcFacts.sscanf_bounded p w response) as (Hl & Hs & Hn).
    repeat split; auto. unfold BUFFER_SIZE. lia. }
  split; [apply Hword; reflexivity|].
  split; [apply Hword; reflexivity|].
  split; apply Hfit; lia.
Qed.

(* ===================================================================== *)
(** ** The echo round trip *)
(* ===================================================================== *)

Local Open Scope list_scope.
Import Platform.

(** C8. Echo round trip, on the platform as modelled.  For a function whose
    argument specification is [{key: "message", default_value: empty,
    allow_overwrite: true}] and which echoes its message: once it is
    registered, a task created for it with [{"message": "Hello,
    Teaclave!"}] and the task invoked, each with success, then whatever
    tasks the platform completes meanwhile, every payload that
    [get_task_result] yields for the task contains "Hello, Teaclave!"; it
    yields that payload as soon as the task is among the completed ones and
    reports that the result is not ready before.  The requests that the
    program sends carry this argument specification and these arguments. *)
Theorem echo_round_trip :
  forall (well_formed : FunctionDescriptor -> bool)
         (execute : FunctionDescriptor -> list (string * string)
                    -> option string)
         (d : FunctionDescriptor) (st st1 st2 st3 : state)
         (fid tid : nat) (done : list nat) (function_id : string),
    argument_spec d =
      [{| key := "message"; default_value := EmptyString;
          allow_overwrite := true |}] ->
    execute d = echo d ->
    register_function well_formed d st = inr (fid, st1) ->
    create_task (hello_task fid) st1 = inr (tid, st2) ->
    invoke_task tid st2 = inr st3 ->
    (String.length (c_str function_id) <= 45)%nat ->
    (forall payload,
        get_task_result tid (completes execute st3 done) = inr payload ->
        contains "Hello, Teaclave!" payload = true) /\
    (In tid done ->
       get_task_result tid (completes execute st3 done) =
         inr "Hello, Teaclave!"%string) /\
    (~ In tid done ->
       get_task_result tid (completes execute st3 done) =
         inl ResultNotReady) /\
    contains echo_descriptor_text register_function_request_serialized
      = true /\
    contains echo_arguments_text
      (Libc.snprintf BUFFER_SIZE create_task_request_serialized
         [function_id]) = true.
Proof.
  intros well_formed execute d st st1 st2 st3 fid tid done function_id
         Hspec Hexec Hreg Hcreate Hinvoke Hlen.
  (* registration *)
  unfold register_function in Hreg.
  destruct (well_formed d); [|discriminate].
  injection Hreg as <- <-.
  (* creation *)
  unfold create_task, hello_task in Hcreate.
  cbn [Platform.function_id Platform.function_arguments functions tasks]
    in Hcreate.
  rewrite PlatformFacts.nth_error_snoc, Hspec in Hcreate.
  cbn in Hcreate. injection Hcreate as <- <-.
  (* invocation *)
  unfold invoke_task in Hinvoke. cbn [tasks functions] in Hinvoke.
  rewrite PlatformFacts.nth_error_snoc in Hinvoke.
  injection Hinvoke as <-.
  (* completion *)
  pose proof (PlatformFacts.completes_running execute d
                [("message", "Hello, Teaclave!")]%string
                (length (tasks st)) done
                {| functions := functions st ++ [d];
                   tasks := update (length (tasks st)) (set_stage RUNNING)
                              (tasks st ++
                               [{| task_function := d;
                                   task_arguments :=
                                     [("message", "Hello, Teaclave!")]%string;
                                   task_stage := CREATED |}]) |}) as Hrun.
  cbn [tasks] in Hrun.
  rewrite PlatformFacts.nth_error_update, Nat.eqb_refl,
    PlatformFacts.nth_error_snoc in Hrun.
  specialize (Hrun eq_refl). rewrite Hexec in Hrun. cbn [echo lookup] in Hrun.
  change (String.eqb "message" "message") with true in Hrun.
  unfold get_task_result. rewrite Hrun. cbn [task_stage].
  assert (Hin : In (length (tasks st)) done <->
                existsb (Nat.eqb (length (tasks st))) done = true).
  { rewrite existsb_exists. split.
    - intros H. exists (length (tasks st)). split; [exact H|].
      apply Nat.eqb_refl.
    - intros (x & Hx & E). apply Nat.eqb_eq in E. now subst. }
  destruct (existsb (Nat.eqb (length (tasks st))) done).
  - split; [intros payload [= <-]; reflexivity|].
    split; [reflexivity|].
    split; [intros N; exfalso; apply N, Hin; reflexivity|].
    split; [reflexivity|].
    rewrite (RequestFacts.create_task_request_shape _ Hlen).
    do 2 apply RequestFacts.contains_app_r. reflexivity.
  - split; [discriminate|].
    split; [intros H; apply Hin in H; discriminate|].
    split; [reflexivity|]. split; [reflexivity|].
    rewrite (RequestFacts.create_task_request_shape _ Hlen).
    do 2 apply RequestFacts.contains_app_r. reflexivity.
Qed.

(* ===================================================================== *)
(** ** Concrete runs *)
(* ===================================================================== *)

(** The response of the registry and the identifier read out of it. *)
Example sscanf_function_id :
  Libc.sscanf sample_function_response function_id_format EmptyString =
  sample_function_id.
Proof. reflexivity. Qed.

Example sscanf_task_id :
  Libc.sscanf sample_task_response task_id_format EmptyString = sample_task_id.
Proof. reflexivity. Qed.

(** A shorter identifier takes the closing quote and brace with it. *)
Example sscanf_short_id :
  Libc.sscanf (lit "{'task_id':'t-1'}") task_id_format EmptyString =
  lit "t-1'}".
Proof. reflexivity. Qed.

(** White space after the prefix is skipped, white space ends the word. *)
Example sscanf_skips_space :
  Libc.sscanf (lit "{'task_id':'  t-1 x'}") task_id_format EmptyString =
  "t-1"%string.
Proof. reflexivity. Qed.

Example all_good_returns_0 : result (run_script all_good) = Returned 0.
Proof. reflexivity. Qed.

(** When the administrator cannot log in, [goto bail] is taken before the
    declaration of [frontend_client] is reached: the handle passed to
    [teaclave_close_frontend_service] was never initialised. *)
Example close_on_uninitialised_handle :
  trace (run_script admin_login_fails) =
  [ Stdout ("[+] Registering" ++ nl)%string;
    CallLogin admin_user_id admin_user_password BUFFER_SIZE 1 EmptyString;
    Stderr ("[-] Failed to login." ++ nl)%string;
    CallClose Indeterminate 0 ].
Proof. reflexivity. Qed.

Lemma tracked_closes_as_modelled (s : script) :
  closes_as_modelled (tracked s) (fun w => w).
Proof.
  intros [id|] w; cbn [tracked teaclave_close_frontend_service handle_of];
    destruct (close_model w _) as [r w'] eqn:E; cbn [fst snd];
    split; tauto || reflexivity.
Qed.

(* ===================================================================== *)
(** ** Instances of the theorems *)
(* ===================================================================== *)

Lemma credential_before_privileged_witness :
  exists (id : nat) (token : string),
    client_of (CallInvokeTask (Client 1) sample_task_id 0) = Client id /\
    In (CallConnect sample_address sample_info sample_cert (Client id))
       (firstn 13 (trace (run_script all_good))) /\
    In (CallSetCredential (Client id) user_id token 0)
       (firstn 13 (trace (run_script all_good))).
Proof.
  apply (credential_before_privileged (scripted all_good)
           sample_address sample_info sample_cert tt
           (firstn 13 (trace (run_script all_good)))
           (CallInvokeTask (Client 1) sample_task_id 0)
           (skipn 14 (trace (run_script all_good)))).
  - reflexivity.
  - reflexivity.
Defined.

Lemma lifecycle_order_witness :
  In (CallInvokeTask (Client 1) sample_task_id 0)
     (firstn 14 (trace (run_script all_good))) /\
  result (run_script create_task_fails) = Exited (-1).
Proof.
  split.
  - destruct (lifecycle_order (scripted all_good)
                sample_address sample_info sample_cert tt
                (firstn 14 (trace (run_script all_good)))
                (CallGetTaskResult (Client 1) sample_task_id BUFFER_SIZE 0
                   "Hello, Teaclave!" 17)
                (skipn 15 (trace (run_script all_good))) eq_refl)
      as (_ & H & _).
    exact (H _ _ _ _ _ _ eq_refl).
  - destruct (lifecycle_order (scripted create_task_fails)
                sample_address sample_info sample_cert tt
                (firstn 11 (trace (run_script create_task_fails)))
                (CallCreateTask (Client 1)
                   (Libc.snprintf BUFFER_SIZE create_task_request_serialized
                      [sample_function_id])
                   EmptyString 64 1 EmptyString 64)
                (skipn 12 (trace (run_script create_task_fails))) eq_refl)
      as (_ & _ & H).
    apply H; [reflexivity | cbn; lia].
Defined.

Lemma create_task_capacity_witness :
  64 <> BUFFER_SIZE /\
  EmptyString = EmptyString /\
  exists response',
    In (CallRegisterFunction (Client 1) register_function_request_serialized
          EmptyString BUFFER_SIZE 0 response' 64)
       (firstn 11 (trace (run_script all_good))).
Proof.
  split; [unfold BUFFER_SIZE; lia|].
  apply (create_task_capacity (scripted all_good)
           sample_address sample_info sample_cert tt
           (firstn 11 (trace (run_script all_good)))
           (Client 1)
           (Libc.snprintf BUFFER_SIZE create_task_request_serialized
              [sample_function_id])
           EmptyString 64 0 sample_task_response 56
           (skipn 12 (trace (run_script all_good)))).
  reflexivity.
Defined.

Lemma fatal_failure_closes_then_exits_witness :
  exists (h : handle) (ret : Z),
    skipn 12 (trace (run_script create_task_fails)) =
      Stderr ("[-] Failed to create a task." ++ nl)%string
      :: CallClose h ret :: close_report ret /\
    result (run_script create_task_fails) = Exited (-1) /\
    process_status (result (run_script create_task_fails)) = 255.
Proof.
  apply (fatal_failure_closes_then_exits (scripted create_task_fails)
           sample_address sample_info sample_cert tt
           (firstn 11 (trace (run_script create_task_fails)))
           (CallCreateTask (Client 1)
              (Libc.snprintf BUFFER_SIZE create_task_request_serialized
                 [sample_function_id])
              EmptyString 64 1 EmptyString 64)
           (skipn 12 (trace (run_script create_task_fails)))).
  - reflexivity.
  - cbn. lia.
  - reflexivity.
  - reflexivity.
Defined.

Lemma user_register_failure_is_not_fatal_witness :
  result (run_script user_exists) = Returned 0 /\
  Exists (fun e' => exists h t c r l, e' = CallGetTaskResult h t c 0 r l)
    (skipn 3 (trace (run_script user_exists))).
Proof.
  destruct (user_register_failure_is_not_fatal (scripted user_exists)
              sample_address sample_info sample_cert tt
              (firstn 2 (trace (run_script user_exists)))
              (CallUserRegister admin_user_id "admin-token" user_id
                 user_password 1)
              (skipn 3 (trace (run_script user_exists))) eq_refl)
    as [H _]; [cbn; lia|].
  destruct (H eq_refl) as (ret & token & post' & _ & _ & Hrest).
  apply Hrest.
  vm_compute.
  repeat (apply Forall_cons;
          [intros F; cbv in F |- *; try exact F; try discriminate F;
           exact (F eq_refl)|]).
  apply Forall_nil.
Defined.

Lemma parse_failure_is_silent_witness :
  Libc.sscanf (lit "{'id':'f-1'}") function_id_format EmptyString =
    EmptyString /\
  exists ret response' len' post',
    skipn 10 (trace (run_script unexpected_responses)) =
      Stdout ("[+] function_id: " ++ nl)%string
      :: CallCreateTask (Client 1)
           (Libc.snprintf BUFFER_SIZE create_task_request_serialized
              [EmptyString])
           EmptyString 13 ret response' len'
      :: post'.
Proof.
  destruct (parse_failure_is_silent (scripted unexpected_responses)
              sample_address sample_info sample_cert tt
              (firstn 9 (trace (run_script unexpected_responses)))
              (CallRegisterFunction (Client 1)
                 register_function_request_serialized EmptyString BUFFER_SIZE 0
                 (lit "{'id':'f-1'}") 13)
              (skipn 10 (trace (run_script unexpected_responses))) eq_refl)
    as [H _].
  exact (H _ _ _ _ _ _ eq_refl eq_refl).
Defined.

Lemma closing_unopened_connection_returns_witness :
  exists ret : Z,
    ret <> 0 /\
    skipn 7 (trace (run_tracked connect_fails)) =
      [ Stderr ("[-] Failed to connect to the frontend service." ++ nl);
        CallClose Null ret;
        Stderr ("[-] Failed to close the frontend service client." ++ nl)
      ]%string /\
    result (run_tracked connect_fails) = Exited (-1).
Proof.
  apply (closing_unopened_connection_returns (tracked connect_fails)
           sample_address sample_info sample_cert (fun w => w) []
           (firstn 6 (trace (run_tracked connect_fails)))
           (skipn 7 (trace (run_tracked connect_fails)))).
  - apply tracked_closes_as_modelled.
  - reflexivity.
Defined.

Lemma echo_round_trip_witness :
  get_task_result 0
    (completes echo
       {| functions := [echo_descriptor]; tasks := [echo_task RUNNING] |}
       [0%nat]) = inr "Hello, Teaclave!"%string /\
  get_task_result 0
    (completes echo
       {| functions := [echo_descriptor]; tasks := [echo_task RUNNING] |}
       []) = inl ResultNotReady.
Proof.
  split.
  - destruct (echo_round_trip (fun _ => true) echo echo_descriptor
                empty_platform
                {| functions := [echo_descriptor]; tasks := [] |}
                {| functions := [echo_descriptor];
                   tasks := [echo_task CREATED] |}
                {| functions := [echo_descriptor];
                   tasks := [echo_task RUNNING] |}
                0%nat 0%nat [0%nat] sample_function_id
                eq_refl eq_refl eq_refl eq_refl eq_refl)
      as (_ & H & _); [cbn; lia|].
    apply H. left. reflexivity.
  - destruct (echo_round_trip (fun _ => true) echo echo_descriptor
                empty_platform
                {| functions := [echo_descriptor]; tasks := [] |}
                {| functions := [echo_descriptor];
                   tasks := [echo_task CREATED] |}
                {| functions := [echo_descriptor];
                   tasks := [echo_task RUNNING] |}
                0%nat 0%nat [] sample_function_id
                eq_refl eq_refl eq_refl eq_refl eq_refl)
      as (_ & _ & H & _); [cbn; lia|].
    apply H. intros [].
Defined.

(** C2, as it is stated, fails when the frontend service cannot be
    reached: the only call of [teaclave_close_frontend_service] is made on
    NULL, no connection was opened. *)
Lemma close_on_failed_connection :
  In (CallClose Null 1) (trace (run_script connect_fails)) /\
  ~ closes_an_open_connection (trace (run_script connect_fails)).
Proof.
  split.
  - vm_compute. tauto.
  - intros (pre & id & ret & post & H & _).
    assert (Hin : In (CallClose (Client id) ret)
                     (trace (run_script connect_fails))).
    { rewrite H. apply in_elt. }
    vm_compute in Hin.
    repeat (destruct Hin as [Hin|Hin]; [discriminate|]).
    exact Hin.
Qed.

Local Open Scope Z_scope.
Local Open Scope list_scope.

(* ===================================================================== *)
(** ** More on identifier parsing *)
(* ===================================================================== *)

Module ScanFacts.

Local Open Scope string_scope.

Lemma c_str_fixed s : all_chars not_NUL s = true -> c_str s = s.
Proof.
  induction s as [|c s IH]; cbn [c_str all_chars]; [reflexivity|].
  unfold not_NUL at 1. intros H. apply andb_true_iff in H as [Hc Hs].
  apply negb_true_iff in Hc. rewrite Hc. now rewrite IH.
Qed.

Lemma all_chars_app p a b :
  all_chars p (a ++ b) = (all_chars p a && all_chars p b)%bool.
Proof.
  induction a as [|c a IH]; cbn [String.append all_chars]; [reflexivity|].
  now rewrite IH, andb_assoc.
Qed.

Lemma skip_space_word s :
  all_chars not_space s = true -> forall rest,
  s <> EmptyString -> Libc.skip_space (s ++ rest) = s ++ rest.
Proof.
  destruct s as [|c s]; [congruence|]. intros H rest _.
  cbn [all_chars] in H. apply andb_true_iff in H as [Hc _].
  unfold not_space in Hc. apply negb_true_iff in Hc.
  cbn [String.append Libc.skip_space]. now rewrite Hc.
Qed.

(** A word of exactly the field width is read whole, and nothing more. *)
Lemma scan_word_exact s : forall rest,
  all_chars not_space s = true ->
  Libc.scan_word (String.length s) (s ++ rest) = s.
Proof.
  induction s as [|c s IH]; intros rest H.
  - cbn. now destruct rest.
  - cbn [all_chars] in H. apply andb_true_iff in H as [Hc Hs].
    unfold not_space in Hc. apply negb_true_iff in Hc.
    cbn [String.length String.append Libc.scan_word]. rewrite Hc.
    now rewrite IH.
Qed.

(** Input without white space is cut at the field width. *)
Lemma scan_word_take w : forall s,
  all_chars not_space s = true -> Libc.scan_word w s = Libc.take w s.
Proof.
  induction w as [|w IH]; intros [|c s] H; cbn [Libc.scan_word Libc.take];
    try reflexivity.
  cbn [all_chars] in H. apply andb_true_iff in H as [Hc Hs].
  unfold not_space in Hc. apply negb_true_iff in Hc. rewrite Hc.
  now rewrite IH.
Qed.

Lemma take_length w : forall s,
  String.length (Libc.take w s) = Nat.min w (String.length s).
Proof.
  induction w as [|w IH]; intros [|c s]; cbn [Libc.take String.length];
    try reflexivity.
  now rewrite IH.
Qed.

(** Reading an identifier field of the given width. *)
Lemma sscanf_exact p id rest :
  all_chars not_NUL p = true ->
  all_chars not_space id = true -> all_chars not_NUL id = true ->
  id <> EmptyString ->
  Libc.sscanf (p ++ id ++ rest)
    (Libc.ordinary p ++ [Libc.ConvS (String.length id)])%list EmptyString
  = id.
Proof.
  intros Hp Hs Hn Hid. rewrite (LibcFacts.sscanf_word p _ _ Hp).
  rewrite (LibcFacts.c_str_app _ _ Hn).
  rewrite (skip_space_word _ Hs _ Hid). now apply scan_word_exact.
Qed.

Lemma sscanf_closed p w id :
  all_chars not_NUL p = true ->
  all_chars not_space id = true -> all_chars not_NUL id = true ->
  Libc.sscanf (p ++ id ++ closing_quote_brace)
    (Libc.ordinary p ++ [Libc.ConvS w])%list EmptyString
  = Libc.take w (id ++ closing_quote_brace).
Proof.
  intros Hp Hs Hn. rewrite (LibcFacts.sscanf_word p _ _ Hp).
  assert (Hn' : all_chars not_NUL (id ++ closing_quote_brace) = true).
  { rewrite all_chars_app, Hn. reflexivity. }
  assert (Hs' : all_chars not_space (id ++ closing_quote_brace) = true).
  { rewrite all_chars_app, Hs. reflexivity. }
  rewrite (c_str_fixed _ Hn').
  assert (Hne : id ++ closing_quote_brace <> EmptyString).
  { destruct id; discriminate. }
  pose proof (skip_space_word _ Hs' EmptyString Hne) as Hk.
  assert (Hnil : forall s, s ++ EmptyString = s).
  { induction s as [|c s IH]; cbn; [reflexivity|now rewrite IH]. }
  rewrite Hnil in Hk. rewrite Hk. now apply scan_word_take.
Qed.

End ScanFacts.

(** X8. Round trip of an identifier of full width: from a response that
    is the prefix, an identifier of 45 (for a task, 41) characters free of
    white space and NUL, and anything after it, [sscanf] reads exactly the
    identifier. *)
Theorem sscanf_recovers_identifier :
  forall (id rest : string),
    all_chars not_space id = true ->
    all_chars not_NUL id = true ->
    (String.length id = 45%nat ->
     Libc.sscanf (function_id_prefix ++ id ++ rest)%string
       function_id_format EmptyString = id) /\
    (String.length id = 41%nat ->
     Libc.sscanf (task_id_prefix ++ id ++ rest)%string
       task_id_format EmptyString = id).
Proof.
  intros id rest Hs Hn.
  assert (Hne : forall n, String.length id = S n -> id <> EmptyString).
  { intros n H ->. discriminate. }
  split; intros Hl; unfold function_id_format, task_id_format;
    rewrite <- Hl;
    apply ScanFacts.sscanf_exact; try reflexivity; try assumption;
    eapply Hne; exact Hl.
Qed.

(** X9. An identifier shorter than the field width is not read back: in
    a response that ends after the closing quote and brace, these
    characters are read as part of the identifier, up to the width. *)
Theorem short_identifier_takes_closing_characters :
  forall (id : string),
    all_chars not_space id = true ->
    all_chars not_NUL id = true ->
    ((String.length id < 45)%nat ->
     Libc.sscanf (function_id_prefix ++ id ++ closing_quote_brace)%string
       function_id_format EmptyString =
       Libc.take 45 (id ++ closing_quote_brace) /\
     (String.length id <
      String.length
        (Libc.sscanf (function_id_prefix ++ id ++ closing_quote_brace)%string
           function_id_format EmptyString))%nat) /\
    ((String.length id < 41)%nat ->
     Libc.sscanf (task_id_prefix ++ id ++ closing_quote_brace)%string
       task_id_format EmptyString =
       Libc.take 41 (id ++ closing_quote_brace) /\
     (String.length id <
      String.length
        (Libc.sscanf (task_id_prefix ++ id ++ closing_quote_brace)%string
           task_id_format EmptyString))%nat).
Proof.
  intros id Hs Hn.
  assert (G : forall p w,
             all_chars not_NUL p = true ->
             (String.length id < w)%nat ->
             Libc.sscanf (p ++ id ++ closing_quote_brace)%string
               (Libc.ordinary p ++ [Libc.ConvS w]) EmptyString =
               Libc.take w (id ++ closing_quote_brace) /\
             (String.length id <
              String.length
                (Libc.sscanf (p ++ id ++ closing_quote_brace)%string
                   (Libc.ordinary p ++ [Libc.ConvS w]) EmptyString))%nat).
  { intros p w Hp Hl.
    rewrite (ScanFacts.sscanf_closed p w id Hp Hs Hn).
    split; [reflexivity|].
    rewrite ScanFacts.take_length, RequestFacts.length_app.
    change (String.length closing_quote_brace) with 2%nat. lia. }
  split; intros Hl; apply G; auto.
Qed.

(* ===================================================================== *)
(** ** More properties of every run *)
(* ===================================================================== *)

Section MoreRuns.

Context {W : Type} (sdk : Extern W).
Variables address info cert : string.

(** X1. The request sent with [teaclave_create_task_serialized] is the
    whole template with the identifier read out of the registration
    response in the place of [%s]: [snprintf] cuts nothing off, the request
    and its terminator fit the buffer. *)
Theorem create_task_request_is_complete :
  forall (w : W) (pre : list event) client request buffer capacity ret
         response len (post : list event),
    trace (main sdk address info cert w) =
      pre ++ CallCreateTask client request buffer capacity ret response len
          :: post ->
    exists registered,
      In (CallRegisterFunction client register_function_request_serialized
            EmptyString BUFFER_SIZE 0 registered capacity) pre /\
      request =
        (create_task_request_head
         ++ Libc.sscanf registered function_id_format EmptyString
         ++ create_task_request_tail)%string /\
      Z.of_nat (String.length request) + 1 <= BUFFER_SIZE.
Proof.
  intros w pre client request buffer capacity ret response len post H.
  assert (Shape : forall registered,
             let r := Libc.snprintf BUFFER_SIZE create_task_request_serialized
                        [Libc.sscanf registered function_id_format
                           EmptyString] in
             r = (create_task_request_head
                  ++ Libc.sscanf registered function_id_format EmptyString
                  ++ create_task_request_tail)%string /\
             Z.of_nat (String.length r) + 1 <= BUFFER_SIZE).
  { intros registered. cbv zeta.
    destruct (LibcFacts.sscanf_bounded function_id_prefix 45 registered)
      as (Hl & _ & Hn).
    fold function_id_format in Hl, Hn.
    pose proof (ScanFacts.c_str_fixed _ Hn) as Hc.
    rewrite RequestFacts.create_task_request_shape by (rewrite Hc; exact Hl).
    rewrite Hc. split; [reflexivity|].
    rewrite !RequestFacts.length_app.
    repeat match goal with
           | |- context [String.length (lit ?t)] =>
               let n := eval vm_compute in (String.length (lit t)) in
               change (String.length (lit t)) with n
           end.
    unfold BUFFER_SIZE. lia. }
  assert (G : forall pre e post,
             trace (main sdk address info cert w) = pre ++ e :: post ->
             forall client request buffer capacity ret response len,
               e = CallCreateTask client request buffer capacity ret
                     response len ->
               exists registered,
                 In (CallRegisterFunction client
                       register_function_request_serialized
                       EmptyString BUFFER_SIZE 0 registered capacity) pre /\
                 request =
                   Libc.snprintf BUFFER_SIZE create_task_request_serialized
                     [Libc.sscanf registered function_id_format
                        EmptyString]).
  { clear H Shape.
    positions (fun pre e (post : list event) =>
      forall client request buffer capacity ret response len,
        e = CallCreateTask client request buffer capacity ret response len ->
        exists registered,
          In (CallRegisterFunction client
                register_function_request_serialized
                EmptyString BUFFER_SIZE 0 registered capacity) pre /\
          request =
            Libc.snprintf BUFFER_SIZE create_task_request_serialized
              [Libc.sscanf registered function_id_format EmptyString]).
    all: try (intros; discriminate).
    all: intros ? ? ? ? ? ? ? [= <- <- <- <- <- <- <-]; eexists; split;
      [find_in | reflexivity]. }
  destruct (G _ _ _ H _ _ _ _ _ _ _ eq_refl) as (registered & Hin & ->).
  exists registered. split; [exact Hin|]. apply Shape.
Qed.

(** X2. The tokens go where they belong: [user_register] is called for
    the new user with the token that the login of the administrator
    returned, and the credential set on the connection is the user
    identifier with the token that the login of that user returned. *)
Theorem tokens_flow :
  forall (w : W) (pre : list event) (e : event) (post : list event),
    trace (main sdk address info cert w) = pre ++ e :: post ->
    (forall admin token user password ret,
        e = CallUserRegister admin token user password ret ->
        admin = admin_user_id /\ user = user_id /\
        password = user_password /\
        In (CallLogin admin_user_id admin_user_password BUFFER_SIZE 0 token)
           pre) /\
    (forall client user token ret,
        e = CallSetCredential client user token ret ->
        user = user_id /\
        In (CallLogin user_id user_password BUFFER_SIZE 0 token) pre).
Proof.
  intro w.
  positions (fun pre e (post : list event) =>
    (forall admin token user password ret,
        e = CallUserRegister admin token user password ret ->
        admin = admin_user_id /\ user = user_id /\
        password = user_password /\
        In (CallLogin admin_user_id admin_user_password BUFFER_SIZE 0 token)
           pre) /\
    (forall client user token ret,
        e = CallSetCredential client user token ret ->
        user = user_id /\
        In (CallLogin user_id user_password BUFFER_SIZE 0 token) pre)).
  all: try (intros; discriminate).
  all: try (intros ? ? ? ? ? [= <- <- <- <- <-];
            repeat (split; [reflexivity|]); find_in).
  all: intros ? ? ? ? [= <- <- <- <-]; split; [reflexivity|find_in].
Qed.

(** X3. Every buffer but the response of [teaclave_create_task_serialized]
    is announced with its full capacity: both logins (the length is set
    again before the second), the registration of the function and the
    fetching of the result are passed [BUFFER_SIZE]. *)
Theorem full_capacity_announced :
  forall (w : W) (pre : list event) (e : event) (post : list event),
    trace (main sdk address info cert w) = pre ++ e :: post ->
    (forall user password capacity ret token,
        e = CallLogin user password capacity ret token ->
        capacity = BUFFER_SIZE) /\
    (forall client request buffer capacity ret response len,
        e = CallRegisterFunction client request buffer capacity ret
              response len ->
        capacity = BUFFER_SIZE /\ buffer = EmptyString) /\
    (forall client task_id capacity ret payload len,
        e = CallGetTaskResult client task_id capacity ret payload len ->
        capacity = BUFFER_SIZE).
Proof.
  intro w.
  positions (fun (pre : list event) e (post : list event) =>
    (forall user password capacity ret token,
        e = CallLogin user password capacity ret token ->
        capacity = BUFFER_SIZE) /\
    (forall client request buffer capacity ret response len,
        e = CallRegisterFunction client request buffer capacity ret
              response len ->
        capacity = BUFFER_SIZE /\ buffer = EmptyString) /\
    (forall client task_id capacity ret payload len,
        e = CallGetTaskResult client task_id capacity ret payload len ->
        capacity = BUFFER_SIZE)).
  all: try (intros; discriminate).
  all: try (intros ? ? ? ? ? [= <- <- <- <- <-]; reflexivity).
  all: try (intros ? ? ? ? ? ? ? [= <- <- <- <- <- <- <-]; split;
            reflexivity).
  all: intros ? ? ? ? ? ? [= <- <- <- <- <- <-]; reflexivity.
Qed.

End MoreRuns.

Ltac split_forall H :=
  repeat match type of H with
         | Forall _ (_ :: _) =>
             let H1 := fresh "Hhd" in
             apply Forall_cons_iff in H; destruct H as [H1 H];
             cbn [failed is_user_register is_close] in H1
         end.

Ltac refute_exists H :=
  repeat match type of H with
         | Exists _ (_ :: _) =>
             apply Exists_cons in H;
             destruct H as [(F1 & F2 & F3)|H];
             [cbn [failed is_user_register is_close] in F1, F2, F3;
              first [contradiction | discriminate | congruence]|]
         | Exists _ [] => inversion H
         end.

Section Outcomes.

Context {W : Type} (sdk : Extern W).
Variables address info cert : string.

(** X4. How the process ends.  [main] either returns what the final
    [teaclave_close_frontend_service] returned or calls [exit(-1)].  It
    returns 0 exactly when no call failed but possibly [user_register]; it
    calls [exit(-1)] exactly when a call other than [user_register] and the
    closing failed. *)
Theorem exit_status_characterisation :
  forall (w : W),
    (result (main sdk address info cert w) = Exited (-1) \/
     exists (h : handle) (r : Z),
       result (main sdk address info cert w) = Returned r /\
       In (CallClose h r) (trace (main sdk address info cert w))) /\
    (result (main sdk address info cert w) = Returned 0 <->
     Forall (fun e => failed e -> is_user_register e = true)
       (trace (main sdk address info cert w))) /\
    (result (main sdk address info cert w) = Exited (-1) <->
     Exists fatal (trace (main sdk address info cert w))).
Proof.
  intro w. unfold fatal. exec_main; cbn [rev app].
  all: split;
    [ first [ left; reflexivity
            | right; do 2 eexists; split; [reflexivity|find_in] ] |].
  all: split; split.
  (* returns 0 -> no failure *)
  all: try (intros [=]; try congruence).
  all: try (lazymatch goal with |- Forall _ _ => idtac end;
            repeat (apply Forall_cons;
                    [cbn [failed is_user_register]; intros F;
                     first [reflexivity | contradiction | discriminate F
                           | exfalso; apply F; reflexivity]|]);
            apply Forall_nil).
  (* no failure -> returns 0 *)
  all: try (lazymatch goal with |- Forall _ _ -> _ => idtac end;
            intros HF; split_forall HF;
            first
              [ reflexivity
              | exfalso;
                match goal with
                | H : ?z <> 0 -> false = true, N : ?z <> 0 |- _ =>
                    discriminate (H N)
                | H : Null = Null -> false = true |- _ =>
                    discriminate (H eq_refl)
                end ]).
  (* exit(-1) -> a fatal failure *)
  all: try (lazymatch goal with |- Exists _ _ => idtac end;
            repeat first
              [ apply Exists_cons_hd; cbn [failed is_user_register is_close];
                solve [repeat split; assumption || reflexivity]
              | apply Exists_cons_tl ]).
  (* a fatal failure -> exit(-1) *)
  all: intros HE; first [reflexivity | exfalso; refute_exists HE].
Qed.

(** X5. Diagnostics and failures correspond.  Every call that fails,
    [user_register] and the closing included, is followed at once by its
    diagnostic on [stderr]; and every line on [stderr] is the diagnostic of
    the failed call that comes just before it.  A run without a failure
    writes nothing to [stderr]. *)
Theorem diagnostics_match_failures :
  forall (w : W) (pre : list event) (e : event) (post : list event),
    trace (main sdk address info cert w) = pre ++ e :: post ->
    (failed e -> exists post', post = Stderr (diagnostic e) :: post') /\
    (forall text post',
        post = Stderr text :: post' -> failed e /\ text = diagnostic e) /\
    (pre = [] -> e = Stdout ("[+] Registering" ++ nl)%string).
Proof.
  intro w.
  positions (fun (pre : list event) e (post : list event) =>
    (failed e -> exists post', post = Stderr (diagnostic e) :: post') /\
    (forall text post',
        post = Stderr text :: post' -> failed e /\ text = diagnostic e) /\
    (pre = [] -> e = Stdout ("[+] Registering" ++ nl)%string)).
  all: try (intros; discriminate).
  all: try (lazymatch goal with |- _ = [] -> _ => idtac end;
            intros _; reflexivity).
  all: try (lazymatch goal with |- failed _ -> _ => idtac end;
            cbn [failed]; intros F; try contradiction;
            eexists; reflexivity).
  all: intros text post' [= <- <-]; split;
    [cbn [failed]; assumption || reflexivity | reflexivity].
Qed.

(** X6. The scenario of a run that returns.  When [main] returns, its
    external calls were, in this order and each with success
    ([user_register] apart, whose result is ignored): login of the
    administrator, [user_register], login of the user, connect, set
    credential, register function, create task, invoke task, get task
    result, close; all on one connection, each identifier being the one
    read out of the preceding response, and the value returned is that of
    the closing. *)
Theorem returning_run_scenario :
  forall (w : W) (r : Z),
    result (main sdk address info cert w) = Returned r ->
    exists admin_token registered user_token id function_response
           function_len task_response task_len payload payload_len,
      filter is_call (trace (main sdk address info cert w)) =
      [ CallLogin admin_user_id admin_user_password BUFFER_SIZE 0
          admin_token;
        CallUserRegister admin_user_id admin_token user_id user_password
          registered;
        CallLogin user_id user_password BUFFER_SIZE 0 user_token;
        CallConnect address info cert (Client id);
        CallSetCredential (Client id) user_id user_token 0;
        CallRegisterFunction (Client id)
          register_function_request_serialized EmptyString BUFFER_SIZE 0
          function_response function_len;
        CallCreateTask (Client id)
          (Libc.snprintf BUFFER_SIZE create_task_request_serialized
             [Libc.sscanf function_response function_id_format
                EmptyString])
          EmptyString function_len 0 task_response task_len;
        CallInvokeTask (Client id)
          (Libc.sscanf task_response task_id_format EmptyString) 0;
        CallGetTaskResult (Client id)
          (Libc.sscanf task_response task_id_format EmptyString)
          BUFFER_SIZE 0 payload payload_len;
        CallClose (Client id) r ].
Proof.
  intros w r. exec_main; cbn [rev app].
  all: intros [= <-].
  all: do 10 eexists; reflexivity.
Qed.

(** X7. No external operation is carried out twice in a run (the two
    logins are for different users), and a run has at least two external
    calls and at most ten. *)
Theorem no_operation_twice :
  forall (w : W),
    NoDup (operations (trace (main sdk address info cert w))) /\
    (2 <= length (operations (trace (main sdk address info cert w)))
     <= 10)%nat.
Proof.
  intro w. exec_main; cbn [rev app operations operation_of length].
  all: split; [|lia].
  all: repeat (apply NoDup_cons;
               [cbn [In]; intros F;
                repeat (destruct F as [F|F]; [discriminate F|]);
                exact F|]).
  all: apply NoDup_nil.
Qed.

(** X10. What [stdout] reports: after a registration that succeeded, the
    line with the function identifier read out of the response; after a
    creation that succeeded, the line with the task identifier; after a
    result that was fetched, the line with the payload up to its first
    NUL. *)
Theorem stdout_reports_identifiers_and_result :
  forall (w : W) (pre : list event) (e : event) (post : list event),
    trace (main sdk address info cert w) = pre ++ e :: post ->
    (forall client request buffer capacity response len,
        e = CallRegisterFunction client request buffer capacity 0
              response len ->
        exists post',
          post = Stdout ("[+] function_id: "
                         ++ Libc.sscanf response function_id_format
                              EmptyString
                         ++ nl)%string :: post') /\
    (forall client request buffer capacity response len,
        e = CallCreateTask client request buffer capacity 0 response len ->
        exists post',
          post = Stdout ("[+] task_id: "
                         ++ Libc.sscanf response task_id_format EmptyString
                         ++ nl)%string :: post') /\
    (forall client task_id capacity payload len,
        e = CallGetTaskResult client task_id capacity 0 payload len ->
        exists post',
          post = Stdout ("[+] Task result in string: "
                         ++ c_str payload ++ nl)%string :: post').
Proof.
  intro w.
  assert (Hid : forall p w0 response,
             c_str (Libc.sscanf response
                      (Libc.ordinary p ++ [Libc.ConvS w0]) EmptyString) =
             Libc.sscanf response
               (Libc.ordinary p ++ [Libc.ConvS w0]) EmptyString).
  { intros p w0 response. apply ScanFacts.c_str_fixed.
    apply (LibcFacts.sscanf_bounded p w0 response). }
  assert (Ffun : forall x,
             Libc.format ("[+] function_id: %s" ++ nl)%string [x] =
             ("[+] function_id: " ++ c_str x ++ nl)%string)
    by reflexivity.
  assert (Ftask : forall x,
             Libc.format ("[+] task_id: %s" ++ nl)%string [x] =
             ("[+] task_id: " ++ c_str x ++ nl)%string)
    by reflexivity.
  pose proof (Hid function_id_prefix 45%nat) as Hf.
  pose proof (Hid task_id_prefix 41%nat) as Ht.
  fold function_id_format in Hf. fold task_id_format in Ht. clear Hid.
  positions (fun (pre : list event) e (post : list event) =>
    (forall client request buffer capacity response len,
        e = CallRegisterFunction client request buffer capacity 0
              response len ->
        exists post',
          post = Stdout ("[+] function_id: "
                         ++ Libc.sscanf response function_id_format
                              EmptyString
                         ++ nl)%string :: post') /\
    (forall client request buffer capacity response len,
        e = CallCreateTask client request buffer capacity 0 response len ->
        exists post',
          post = Stdout ("[+] task_id: "
                         ++ Libc.sscanf response task_id_format EmptyString
                         ++ nl)%string :: post') /\
    (forall client task_id capacity payload len,
        e = CallGetTaskResult client task_id capacity 0 payload len ->
        exists post',
          post = Stdout ("[+] Task result in string: "
                         ++ c_str payload ++ nl)%string :: post')).
  all: try (intros; discriminate).
  all: try (intros ? ? ? ? ? ? E; try (exfalso; congruence);
            injection E as <- <- <- <- <- <-; eexists;
            first [ rewrite Ffun, Hf; reflexivity
                  | rewrite Ftask, Ht; reflexivity ]).
  all: intros ? ? ? ? ? E; try (exfalso; congruence);
    injection E as <- <- <- <- <-; eexists; reflexivity.
Qed.

(** X11. One connection.  [teaclave_connect_frontend_service] is called at
    most once in a run, and every SDK call that follows it, from the
    setting of the credential to the closing, is made on the handle it
    returned. *)
Theorem single_connection :
  forall (w : W) (pre : list event) (e : event) (post : list event),
    trace (main sdk address info cert w) = pre ++ e :: post ->
    (is_connect e = true ->
     e = CallConnect address info cert (client_of e) /\
     Forall (fun e' => is_connect e' = false) (pre ++ post) /\
     Forall (fun e' => on_connection e' = false) pre /\
     Forall (fun e' => on_connection e' = true ->
                       client_of e' = client_of e) post).
Proof.
  intro w.
  positions (fun (pre : list event) e (post : list event) =>
    is_connect e = true ->
    e = CallConnect address info cert (client_of e) /\
    Forall (fun e' => is_connect e' = false) (pre ++ post) /\
    Forall (fun e' => on_connection e' = false) pre /\
    Forall (fun e' => on_connection e' = true ->
                      client_of e' = client_of e) post).
  all: cbn [is_connect]; intros E; try discriminate.
  all: split; [reflexivity|]; cbn [app client_of].
  all: repeat split.
  all: repeat (apply Forall_cons; [try reflexivity|]); try apply Forall_nil.
  all: cbn [on_connection client_of]; intros; reflexivity || discriminate.
Qed.

End Outcomes.

Section Handles.

Context {W : Type} (sdk : Extern W).
Variables address info cert : string.

(** X12. When a login fails, [goto bail] is taken before the declaration
    of [frontend_client] is reached: the one argument that
    [teaclave_close_frontend_service] then receives is that variable, to
    which no value was ever given. *)
Theorem login_failure_closes_uninitialised_handle :
  forall (w : W) (pre : list event) user password capacity ret token
         (post : list event),
    trace (main sdk address info cert w) =
      pre ++ CallLogin user password capacity ret token :: post ->
    ret <> 0 ->
    Forall (fun e => is_connect e = false)
      (trace (main sdk address info cert w)) /\
    exists closed,
      post = Stderr ("[-] Failed to login." ++ nl)%string
             :: CallClose Indeterminate closed :: close_report closed.
Proof.
  intros w pre user password capacity ret token post H Hret.
  assert (G : forall pre e post,
             trace (main sdk address info cert w) = pre ++ e :: post ->
             forall user password capacity ret token,
               e = CallLogin user password capacity ret token ->
               ret <> 0 ->
               Forall (fun e => is_connect e = false)
                 (trace (main sdk address info cert w)) /\
               exists closed,
                 post = Stderr ("[-] Failed to login." ++ nl)%string
                        :: CallClose Indeterminate closed
                        :: close_report closed).
  { clear.
    positions (fun (pre : list event) e (post : list event) =>
      forall user password capacity ret token,
        e = CallLogin user password capacity ret token ->
        ret <> 0 ->
        Forall (fun e => is_connect e = false)
          (trace (main sdk address info cert w)) /\
        exists closed,
          post = Stderr ("[-] Failed to login." ++ nl)%string
                 :: CallClose Indeterminate closed
                 :: close_report closed).
    all: try (intros; discriminate).
    all: intros ? ? ? ? ? [= <- <- <- <- <-] N; try contradiction.
    all: split; [repeat constructor|].
    all: match goal with
         | |- exists closed, _ :: CallClose _ ?z :: _ = _ => exists z
         end.
    all: unfold close_report;
      try match goal with
          | H : ?z <> 0 |- context [?z =? 0] =>
              destruct (Z.eqb_spec z 0); [contradiction|]
          end;
      reflexivity. }
  exact (G _ _ _ H _ _ _ _ _ eq_refl Hret).
Qed.

(** X13. The task identifier that is passed to [teaclave_invoke_task] and
    to [teaclave_get_task_result] never has more than 41 characters and
    never contains white space or NUL; it may be empty. *)
Theorem task_identifier_sent_is_bounded :
  forall (w : W) (pre : list event) (e : event) (post : list event),
    trace (main sdk address info cert w) = pre ++ e :: post ->
    forall task_id,
      (exists client ret, e = CallInvokeTask client task_id ret) \/
      (exists client capacity ret payload len,
          e = CallGetTaskResult client task_id capacity ret payload len) ->
      (String.length task_id <= 41)%nat /\
      all_chars not_space task_id = true /\
      all_chars not_NUL task_id = true.
Proof.
  intro w.
  assert (B : forall response,
             (String.length
                (Libc.sscanf response task_id_format EmptyString) <= 41)%nat
             /\ all_chars not_space
                  (Libc.sscanf response task_id_format EmptyString) = true
             /\ all_chars not_NUL
                  (Libc.sscanf response task_id_format EmptyString) = true).
  { intros response.
    exact (LibcFacts.sscanf_bounded task_id_prefix 41 response). }
  positions (fun (pre : list event) e (post : list event) =>
    forall task_id,
      (exists client ret, e = CallInvokeTask client task_id ret) \/
      (exists client capacity ret payload len,
          e = CallGetTaskResult client task_id capacity ret payload len) ->
      (String.length task_id <= 41)%nat /\
      all_chars not_space task_id = true /\
      all_chars not_NUL task_id = true).
  all: intros task_id [(? & ? & E)|(? & ? & ? & ? & ? & E)];
    try discriminate.
  all: first [ injection E as <- <- <- | injection E as <- <- <- <- <- <- ];
    apply B.
Qed.

End Handles.

Lemma login_failure_closes_uninitialised_handle_witness :
  exists closed,
    skipn 2 (trace (run_script admin_login_fails)) =
    Stderr ("[-] Failed to login." ++ nl)%string
    :: CallClose Indeterminate closed :: close_report closed.
Proof.
  apply (login_failure_closes_uninitialised_handle
           (scripted admin_login_fails)
           sample_address sample_info sample_cert tt
           (firstn 1 (trace (run_script admin_login_fails)))
           admin_user_id admin_user_password BUFFER_SIZE 1 EmptyString
           (skipn 2 (trace (run_script admin_login_fails)))).
  - reflexivity.
  - lia.
Defined.

Lemma task_identifier_sent_is_bounded_witness :
  (String.length sample_task_id <= 41)%nat /\
  all_chars not_space sample_task_id = true /\
  all_chars not_NUL sample_task_id = true.
Proof.
  apply (task_identifier_sent_is_bounded (scripted all_good)
           sample_address sample_info sample_cert tt
           (firstn 13 (trace (run_script all_good)))
           (CallInvokeTask (Client 1) sample_task_id 0)
           (skipn 14 (trace (run_script all_good))) eq_refl).
  left. exists (Client 1), 0. reflexivity.
Defined.

(* ===================================================================== *)
(** ** Instances of the further theorems *)
(* ===================================================================== *)

Lemma sscanf_recovers_identifier_witness :
  Libc.sscanf (function_id_prefix ++ sample_function_id
               ++ closing_quote_brace)%string
    function_id_format EmptyString = sample_function_id /\
  Libc.sscanf (task_id_prefix ++ sample_task_id ++ " and more")%string
    task_id_format EmptyString = sample_task_id.
Proof.
  split.
  - apply (proj1 (sscanf_recovers_identifier sample_function_id
                    closing_quote_brace eq_refl eq_refl)).
    reflexivity.
  - apply (proj2 (sscanf_recovers_identifier sample_task_id
                    " and more"%string eq_refl eq_refl)).
    reflexivity.
Defined.

Lemma short_identifier_takes_closing_characters_witness :
  Libc.sscanf (function_id_prefix ++ "f-1" ++ closing_quote_brace)%string
    function_id_format EmptyString = lit "f-1'}".
Proof.
  destruct (proj1 (short_identifier_takes_closing_characters "f-1"%string
                     eq_refl eq_refl)) as [H _].
  - cbn. lia.
  - rewrite H. reflexivity.
Defined.

Lemma create_task_request_is_complete_witness :
  exists registered,
    In (CallRegisterFunction (Client 1) register_function_request_serialized
          EmptyString BUFFER_SIZE 0 registered 64)
       (firstn 11 (trace (run_script all_good))) /\
    Libc.snprintf BUFFER_SIZE create_task_request_serialized
      [sample_function_id] =
      (create_task_request_head
       ++ Libc.sscanf registered function_id_format EmptyString
       ++ create_task_request_tail)%string /\
    Z.of_nat
      (String.length
         (Libc.snprintf BUFFER_SIZE create_task_request_serialized
            [sample_function_id])) + 1 <= BUFFER_SIZE.
Proof.
  apply (create_task_request_is_complete (scripted all_good)
           sample_address sample_info sample_cert tt
           (firstn 11 (trace (run_script all_good)))
           (Client 1)
           (Libc.snprintf BUFFER_SIZE create_task_request_serialized
              [sample_function_id])
           EmptyString 64 0 sample_task_response 56
           (skipn 12 (trace (run_script all_good)))).
  reflexivity.
Defined.

Lemma tokens_flow_witness :
  user_id = user_id /\
  In (CallLogin user_id user_password BUFFER_SIZE 0 "user-token")
     (firstn 8 (trace (run_script all_good))).
Proof.
  destruct (tokens_flow (scripted all_good)
              sample_address sample_info sample_cert tt
              (firstn 8 (trace (run_script all_good)))
              (CallSetCredential (Client 1) user_id "user-token" 0)
              (skipn 9 (trace (run_script all_good))) eq_refl)
    as [_ H].
  exact (H _ _ _ _ eq_refl).
Defined.

Lemma full_capacity_announced_witness :
  4086 = BUFFER_SIZE.
Proof.
  destruct (full_capacity_announced (scripted all_good)
              sample_address sample_info sample_cert tt
              (firstn 4 (trace (run_script all_good)))
              (CallLogin user_id user_password 4086 0 "user-token")
              (skipn 5 (trace (run_script all_good))) eq_refl)
    as [H _].
  exact (H _ _ _ _ _ eq_refl).
Defined.

Lemma diagnostics_match_failures_witness :
  exists post',
    skipn 9 (trace (run_script connect_fails)) =
    Stderr ("[-] Failed to close the frontend service client." ++ nl)%string
    :: post'.
Proof.
  destruct (diagnostics_match_failures (scripted connect_fails)
              sample_address sample_info sample_cert tt
              (firstn 8 (trace (run_script connect_fails)))
              (CallClose Null 1)
              (skipn 9 (trace (run_script connect_fails))) eq_refl)
    as [H _].
  apply H. cbn. lia.
Defined.

Lemma returning_run_scenario_witness :
  length (filter is_call (trace (run_script all_good))) = 10%nat.
Proof.
  destruct (returning_run_scenario (scripted all_good)
              sample_address sample_info sample_cert tt 0 eq_refl)
    as (? & ? & ? & ? & ? & ? & ? & ? & ? & ? & H).
  unfold run_script. rewrite H. reflexivity.
Defined.

Lemma stdout_reports_identifiers_and_result_witness :
  exists post',
    skipn 15 (trace (run_script all_good)) =
    Stdout ("[+] Task result in string: Hello, Teaclave!" ++ nl)%string
    :: post'.
Proof.
  destruct (stdout_reports_identifiers_and_result (scripted all_good)
              sample_address sample_info sample_cert tt
              (firstn 14 (trace (run_script all_good)))
              (CallGetTaskResult (Client 1) sample_task_id BUFFER_SIZE 0
                 "Hello, Teaclave!" 17)
              (skipn 15 (trace (run_script all_good))) eq_refl)
    as (_ & _ & H).
  exact (H _ _ _ _ _ eq_refl).
Defined.

Lemma single_connection_witness :
  Forall (fun e' => on_connection e' = true -> client_of e' = Client 1)
    (skipn 7 (trace (run_script all_good))).
Proof.
  destruct (single_connection (scripted all_good)
              sample_address sample_info sample_cert tt
              (firstn 6 (trace (run_script all_good)))
              (CallConnect sample_address sample_info sample_cert (Client 1))
              (skipn 7 (trace (run_script all_good))) eq_refl eq_refl)
    as (_ & _ & _ & H).
  exact H.
Defined.
